(** * ReactBridge: registry, batch dispatch and lifecycle

    A shallow embedding of [ReactUbuntu/runtime/src/reactbridge.cpp].

    The bridge object and its private data ([ReactBridgePrivate]) become a
    record that is threaded through every member function.  Everything the
    bridge does to the outside world (log lines, signals, calls on the
    executor, handler invocations) is appended to a trace, and the two
    ways in which the C++ code can leave defined behaviour (dereferencing a
    null pointer, indexing a [QList] out of range) are faults of a small
    state-and-error monad.  Qt itself, the plugin loader and the classes
    that reactbridge.cpp only uses ([ReactModuleData], the executors, the
    concrete modules) are supplied by an environment. *)

From stdpp Require Import base gmap list strings sorting.
From Stdlib Require Import ZArith Lia.

#[local] Set Warnings "-register-all".
Local Open Scope string_scope.
Local Open Scope list_scope.
Local Open Scope Z_scope.

(** ** Values exchanged with the script side *)

(** [QVariant], as far as JSON documents can populate it.  A JSON number is
    kept as the integer it rounds to, which is all that [toInt] looks at;
    the bridge reads numbers in no other way. *)
Inductive QVariant : Type :=
| VInvalid
| VBool (b : bool)
| VNum (n : Z)
| VString (s : string)
| VList (l : list QVariant)
| VMap (m : list (string * QVariant)).

Inductive QJsonDocument : Type :=
| DocNull
| DocArray (a : list QVariant)
| DocObject (o : list (string * QVariant)).

Definition isNull (doc : QJsonDocument) : bool :=
  match doc with DocNull => true | _ => false end.

Definition isArray (doc : QJsonDocument) : bool :=
  match doc with DocArray _ => true | _ => false end.

Definition toVariant (doc : QJsonDocument) : QVariant :=
  match doc with
  | DocNull => VInvalid
  | DocArray a => VList a
  | DocObject o => VMap o
  end.

(** [QVariant::toList]: the list itself, or an empty list for any other
    kind of value. *)
Definition toList (v : QVariant) : list QVariant :=
  match v with VList l => l | _ => [] end.

(** Conversion to the 32-bit [int] of the C++ code, wrap-around written
    out. *)
Definition int32 (n : Z) : Z := (n + 2 ^ 31) mod 2 ^ 32 - 2 ^ 31.

(** ** Modules and methods *)

Record ReactModuleMethod : Type := mkMethod { methodName : string }.

(** [ReactModuleData] belongs to reactmoduledata.h.  The bridge uses four of
    its members, and they are taken as they come: [id()], [name()],
    [info()] and [method(int)], whose result the bridge compares with the
    null pointer, here [None]. *)
Record ReactModuleData : Type := mkModuleData {
  md_id : Z;
  md_name : string;
  md_info : QVariant;
  method : Z → option ReactModuleMethod
}.

(** A method table as the spec describes it, "indexed 0..N-1"; the sample
    modules below use it. *)
Definition methodAt (methods : list ReactModuleMethod) (i : Z)
  : option ReactModuleMethod :=
  if decide (0 ≤ i) then methods !! Z.to_nat i else None.

(** A [QObject] handed to the bridge as a candidate module. *)
Record QObject : Type := mkObject { className : string }.

(** ** The environment: Qt and the collaborators outside this file *)

(** What the meta-type system knows about a type name: nothing
    ([QMetaType::type] gives [UnknownType]); the type but no meta-object
    for it ([metaObjectForType] gives a null pointer); or a meta-object,
    whose [newInstance] does or does not yield a [ReactExecutor]. *)
Inductive MetaType : Type :=
| UnknownType
| NoMetaObject
| MetaObject (isExecutor : bool).

(** What [QPluginLoader::instance] followed by
    [qobject_cast<ReactModuleLoader*>] yields for a library file. *)
Inductive PluginInstance : Type :=
| NotAPlugin (errorString : string)
| NotAModuleLoader
| ModuleLoader (availableModules : list QObject).

Record Env : Type := mkEnv {
  (** [QString] to [int], used by [QVariant::toInt] on strings *)
  QString_toInt : string → Z;
  (** the meta-type registry, keyed by type name *)
  QMetaType_type : string → MetaType;
  (** [UbuntuComponentsLoader::availableModules] *)
  UbuntuComponentsLoader_availableModules : list QObject;
  (** [QDir(path).entryList({"*.so"})] *)
  QDir_entryList : string → list string;
  (** plugin loading, by directory and file name *)
  QPluginLoader_instance : string → string → PluginInstance;
  (** does [qobject_cast<ReactModuleInterface*>] succeed? *)
  qobject_cast_ReactModuleInterface : QObject → bool;
  (** [new ReactModuleData(o)]; the first argument counts the
      [ReactModuleData] objects constructed before this one, which is all
      an ID allocator can depend on besides the module itself *)
  ReactModuleData_new : nat → QObject → ReactModuleData
}.

(** [QVariant::toInt]. *)
Definition toInt (env : Env) (v : QVariant) : Z :=
  match v with
  | VNum n => int32 n
  | VBool b => if b then 1 else 0
  | VString s => QString_toInt env s
  | _ => 0
  end.

(** ** Effects *)

Definition ptr : Type := nat.
Bind Scope nat_scope with ptr.

(** The two lambdas this file passes to [executeJSCall]. *)
Inductive Callback : Type :=
| CbProcessResult             (* [processResult(doc)] *)
| CbProcessResultThenReady.   (* [processResult(doc); setReady(true)] *)

(** The two lambdas this file passes to [QTimer::singleShot]. *)
Inductive TimerTask : Type :=
| TkExecuteApplicationScript  (* from [sourcesFinished], 200 ms *)
| TkFlushedQueue.             (* from [applicationScriptDone], 0 ms *)

Inductive ExecutorClass : Type :=
| ByName (name : string)
| ReactNetExecutor.

(** What the bridge does to the world around it.  The handler of a module
    method is outside this file: [invokeWithBridge] is recorded as
    [EvInvoke], and whatever the handler then asks of the bridge shows up
    as further steps of the event loop below. *)
Inductive Event : Type :=
| EvWarning (msg : string)
| EvCritical (msg : string)
| EvReadyChanged
| EvNewExecutor (e : ptr) (c : ExecutorClass)
| EvDeleteLater (e : ptr)
| EvConnectApplicationScriptDone (e : ptr)
| EvExecutorInit (e : ptr)
| EvInjectJson (e : ptr) (name : string) (payload : QVariant)
| EvExecuteJSCall (e : ptr) (name : string) (args : list QVariant) (cb : Callback)
| EvExecuteApplicationScript (e : ptr) (src : ptr) (url : string)
| EvSingleShot (msec : Z) (task : TimerTask)
| EvSetScriptUrl (src : ptr) (url : string)
| EvConnectSourceCode (src : ptr)
| EvLoadSource (src : ptr) (nam : ptr)
| EvSetBridge (o : QObject)
| EvDeleteModuleData (id : Z)
| EvInvoke (md : ReactModuleData) (m : ReactModuleMethod) (params : list QVariant)
| EvShowErrorMessage (msg : string).

Record PendingCall : Type := mkCall {
  call_executor : ptr;
  call_name : string;
  call_args : list QVariant;
  call_callback : Callback
}.

(** ** The bridge *)

(** [ReactBridgePrivate], without the members this development never reads
    ([qmlEngine], [visualParent], [redbox], [eventDispatcher]). *)
Record ReactBridgePrivate : Type := mkPrivate {
  ready : bool;
  executorName : string;
  executor : option ptr;
  nam : option ptr;
  uiManager : option ptr;
  imageLoader : option ptr;
  sourceCode : option ptr;
  bundleUrl : string;
  pluginsPath : string;
  modules : gmap Z (option ReactModuleData)
}.

(** The state a member function runs in: the private data, the allocation
    counters, what is queued in the event loop, and the trace so far. *)
Record Bridge : Type := mkBridge {
  d : ReactBridgePrivate;
  nextPtr : ptr;
  moduleDataCount : nat;
  timers : list TimerTask;
  calls : list PendingCall;
  trace : list Event
}.

(** The bridge right after its constructor. *)
Definition ReactBridge_new : Bridge :=
  {| d := {| ready := false; executorName := "ReactNetExecutor";
             executor := None; nam := None; uiManager := None;
             imageLoader := None; sourceCode := None; bundleUrl := "";
             pluginsPath := "./plugins"; modules := ∅ |};
     nextPtr := 1%nat; moduleDataCount := 0%nat;
     timers := []; calls := []; trace := [] |}.

Definition with_d (f : ReactBridgePrivate → ReactBridgePrivate) (s : Bridge) : Bridge :=
  {| d := f (d s); nextPtr := nextPtr s; moduleDataCount := moduleDataCount s;
     timers := timers s; calls := calls s; trace := trace s |}.

Definition put_ready (b : bool) (p : ReactBridgePrivate) : ReactBridgePrivate :=
  {| ready := b; executorName := executorName p; executor := executor p;
     nam := nam p; uiManager := uiManager p; imageLoader := imageLoader p;
     sourceCode := sourceCode p; bundleUrl := bundleUrl p;
     pluginsPath := pluginsPath p; modules := modules p |}.

Definition put_executorName (n : string) (p : ReactBridgePrivate) : ReactBridgePrivate :=
  {| ready := ready p; executorName := n; executor := executor p;
     nam := nam p; uiManager := uiManager p; imageLoader := imageLoader p;
     sourceCode := sourceCode p; bundleUrl := bundleUrl p;
     pluginsPath := pluginsPath p; modules := modules p |}.

Definition put_executor (e : option ptr) (p : ReactBridgePrivate) : ReactBridgePrivate :=
  {| ready := ready p; executorName := executorName p; executor := e;
     nam := nam p; uiManager := uiManager p; imageLoader := imageLoader p;
     sourceCode := sourceCode p; bundleUrl := bundleUrl p;
     pluginsPath := pluginsPath p; modules := modules p |}.

Definition put_nam (n : option ptr) (p : ReactBridgePrivate) : ReactBridgePrivate :=
  {| ready := ready p; executorName := executorName p; executor := executor p;
     nam := n; uiManager := uiManager p; imageLoader := imageLoader p;
     sourceCode := sourceCode p; bundleUrl := bundleUrl p;
     pluginsPath := pluginsPath p; modules := modules p |}.

Definition put_uiManager (u : option ptr) (p : ReactBridgePrivate) : ReactBridgePrivate :=
  {| ready := ready p; executorName := executorName p; executor := executor p;
     nam := nam p; uiManager := u; imageLoader := imageLoader p;
     sourceCode := sourceCode p; bundleUrl := bundleUrl p;
     pluginsPath := pluginsPath p; modules := modules p |}.

Definition put_imageLoader (u : option ptr) (p : ReactBridgePrivate) : ReactBridgePrivate :=
  {| ready := ready p; executorName := executorName p; executor := executor p;
     nam := nam p; uiManager := uiManager p; imageLoader := u;
     sourceCode := sourceCode p; bundleUrl := bundleUrl p;
     pluginsPath := pluginsPath p; modules := modules p |}.

Definition put_sourceCode (u : option ptr) (p : ReactBridgePrivate) : ReactBridgePrivate :=
  {| ready := ready p; executorName := executorName p; executor := executor p;
     nam := nam p; uiManager := uiManager p; imageLoader := imageLoader p;
     sourceCode := u; bundleUrl := bundleUrl p;
     pluginsPath := pluginsPath p; modules := modules p |}.

Definition put_bundleUrl (u : string) (p : ReactBridgePrivate) : ReactBridgePrivate :=
  {| ready := ready p; executorName := executorName p; executor := executor p;
     nam := nam p; uiManager := uiManager p; imageLoader := imageLoader p;
     sourceCode := sourceCode p; bundleUrl := u;
     pluginsPath := pluginsPath p; modules := modules p |}.

Definition put_pluginsPath (u : string) (p : ReactBridgePrivate) : ReactBridgePrivate :=
  {| ready := ready p; executorName := executorName p; executor := executor p;
     nam := nam p; uiManager := uiManager p; imageLoader := imageLoader p;
     sourceCode := sourceCode p; bundleUrl := bundleUrl p;
     pluginsPath := u; modules := modules p |}.

Definition put_modules (m : gmap Z (option ReactModuleData)) (p : ReactBridgePrivate)
  : ReactBridgePrivate :=
  {| ready := ready p; executorName := executorName p; executor := executor p;
     nam := nam p; uiManager := uiManager p; imageLoader := imageLoader p;
     sourceCode := sourceCode p; bundleUrl := bundleUrl p;
     pluginsPath := pluginsPath p; modules := m |}.

(** ** The monad of member functions *)

Inductive Fault : Type :=
| NullPointer        (* a member call through [nullptr] *)
| IndexOutOfRange.   (* [QList::operator[]] outside [0, size) *)

Inductive Outcome (A : Type) : Type :=
| Done (a : A) (s : Bridge)
| Crash (f : Fault) (s : Bridge).
Arguments Done {A} a s.
Arguments Crash {A} f s.

Definition M (A : Type) : Type := Bridge → Outcome A.

Definition ret {A} (a : A) : M A := fun s => Done a s.

Definition bind {A B} (m : M A) (k : A → M B) : M B :=
  fun s => match m s with
           | Done a s' => k a s'
           | Crash f s' => Crash f s'
           end.

#[global] Instance M_ret : MRet M := @ret.
#[global] Instance M_bind : MBind M := fun A B k m => bind m k.

Definition fault {A} (f : Fault) : M A := fun s => Crash f s.

Definition get {A} (f : ReactBridgePrivate → A) : M A := fun s => Done (f (d s)) s.

Definition modify (f : ReactBridgePrivate → ReactBridgePrivate) : M unit :=
  fun s => Done tt (with_d f s).

Definition emit (ev : Event) : M unit :=
  fun s => Done tt {| d := d s; nextPtr := nextPtr s;
                      moduleDataCount := moduleDataCount s;
                      timers := timers s; calls := calls s;
                      trace := trace s ++ [ev] |}.

(** [new T]: a pointer that was never handed out before. *)
Definition new : M ptr :=
  fun s => Done (nextPtr s) {| d := d s; nextPtr := S (nextPtr s);
                               moduleDataCount := moduleDataCount s;
                               timers := timers s; calls := calls s;
                               trace := trace s |}.

(** Dereferencing a pointer member. *)
Definition deref (f : ReactBridgePrivate → option ptr) : M ptr :=
  fun s => match f (d s) with
           | Some p => Done p s
           | None => Crash NullPointer s
           end.

Definition qWarning (msg : string) : M unit := emit (EvWarning msg).
Definition qCritical (msg : string) : M unit := emit (EvCritical msg).

(** [for (x : l) body]. *)
Fixpoint for_each {A} (l : list A) (body : A → M unit) : M unit :=
  match l with
  | [] => ret tt
  | x :: r => body x ;; for_each r body
  end.

(** [QList::operator[]]. *)
Definition QList_at {A} (l : list A) (i : nat) : M A :=
  match l !! i with
  | Some x => ret x
  | None => fault IndexOutOfRange
  end.

(** [d->modules[k]] on the non-const map: [QMap::operator[]] returns the
    stored value, and for a key that is not in the map it first inserts a
    default-constructed value, here the null pointer. *)
Definition modules_at (k : Z) : M (option ReactModuleData) :=
  fun s => match modules (d s) !! k with
           | Some v => Done v s
           | None => Done None (with_d (put_modules (<[k := None]> (modules (d s)))) s)
           end.

Definition push_timer (t : TimerTask) : M unit :=
  fun s => Done tt {| d := d s; nextPtr := nextPtr s;
                      moduleDataCount := moduleDataCount s;
                      timers := timers s ++ [t]; calls := calls s;
                      trace := trace s |}.

Definition push_call (c : PendingCall) : M unit :=
  fun s => Done tt {| d := d s; nextPtr := nextPtr s;
                      moduleDataCount := moduleDataCount s;
                      timers := timers s; calls := calls s ++ [c];
                      trace := trace s |}.

(** [new ReactModuleData(o)]. *)
Definition newModuleData (env : Env) (o : QObject) : M ReactModuleData :=
  fun s => Done (ReactModuleData_new env (moduleDataCount s) o)
                {| d := d s; nextPtr := nextPtr s;
                   moduleDataCount := S (moduleDataCount s);
                   timers := timers s; calls := calls s; trace := trace s |}.

(** The values of a [QMap<int, T>], in ascending key order. *)
Definition key_le {V} (a b : Z * V) : Prop := a.1 ≤ b.1.

#[global] Instance key_le_dec {V} (a b : Z * V) : Decision (key_le a b) :=
  Z_le_dec a.1 b.1.

Definition QMap_values {V} (m : gmap Z V) : list V :=
  (merge_sort key_le (map_to_list m)).*2.

(** [QVariantMap::insert]: keys are kept in order and an existing key gets
    the new value. *)
Fixpoint QVariantMap_insert (k : string) (v : QVariant) (m : list (string * QVariant))
  : list (string * QVariant) :=
  match m with
  | [] => [(k, v)]
  | (k', v') :: r =>
      match String.compare k k' with
      | Lt => (k, v) :: (k', v') :: r
      | Eq => (k, v) :: r
      | Gt => (k', v') :: QVariantMap_insert k v r
      end
  end.

(** ** Member functions of [ReactBridgePrivate] *)

Definition internalModules : list QObject :=
  [ mkObject "ReactTiming"; mkObject "ReactAppState";
    mkObject "ReactAsyncLocalStorage"; mkObject "ReactNetworking";
    mkObject "ReactNetInfo"; mkObject "ReactViewManager";
    mkObject "ReactRawTextManager"; mkObject "ReactTextManager";
    mkObject "ReactImageManager"; mkObject "ReactExceptionsManager" ].

(** The loop of [pluginModules] over the libraries found in the plugin
    directory; [acc] is the local [modules] list. *)
Fixpoint loadPlugins (env : Env) (dir : string) (files : list string)
    (acc : list QObject) : M (list QObject) :=
  match files with
  | [] => ret acc
  | pluginPath :: rest =>
      match QPluginLoader_instance env dir pluginPath with
      | NotAPlugin err =>
          qWarning ("Found non-plugin library in plugin path " +:+ pluginPath
                    +:+ " " +:+ err);;
          loadPlugins env dir rest acc
      | NotAModuleLoader =>
          qWarning "Cound not find ReactModuleLoader interface";;
          loadPlugins env dir rest acc
      | ModuleLoader ms => loadPlugins env dir rest (acc ++ ms)
      end
  end.

Definition pluginModules (env : Env) : M (list QObject) :=
  pluginsDir ← get pluginsPath;
  loadPlugins env pluginsDir (QDir_entryList env pluginsDir)
    (UbuntuComponentsLoader_availableModules env
     ++ [ mkObject "UbuntuScrollViewManager"; mkObject "UbuntuNavigatorManager";
          mkObject "UbuntuPageManager"; mkObject "UbuntuTextFieldManager";
          mkObject "UbuntuDatePickerManager" ]).

(** ** Member functions of [ReactBridge] *)

Definition setReady (b : bool) : M unit :=
  r ← get ready;
  if Bool.eqb r b then ret tt
  else modify (put_ready b);; emit EvReadyChanged.

Definition setupExecutor (env : Env) : M unit :=
  name ← get executorName;
  match QMetaType_type env (name +:+ "*") with
  | UnknownType => ret tt
  | NoMetaObject => fault NullPointer
  | MetaObject true =>
      e ← new;
      emit (EvNewExecutor e (ByName name));;
      modify (put_executor (Some e))
  | MetaObject false => modify (put_executor None)
  end;;
  cur ← get executor;
  match cur with
  | None =>
      qWarning ("Could not construct executor named " +:+ name
                +:+ " constructing default (ReactNetExecutor)");;
      e ← new;
      emit (EvNewExecutor e ReactNetExecutor);;
      modify (put_executor (Some e))
  | Some _ => ret tt
  end;;
  e ← deref executor;
  emit (EvConnectApplicationScriptDone e);;
  emit (EvExecutorInit e).

(** [d->executor->executeJSCall(name, args, cb)]: the call goes out and the
    callback waits for the executor's answer. *)
Definition executeJSCall (name : string) (args : list QVariant) (cb : Callback)
  : M unit :=
  e ← deref executor;
  emit (EvExecuteJSCall e name args cb);;
  push_call (mkCall e name args cb).

Definition enqueueJSCall (module method : string) (args : list QVariant) : M unit :=
  executeJSCall "callFunctionReturnFlushedQueue"
                [VString module; VString method; VList args] CbProcessResult.

Definition invokeAndProcess (method : string) (args : list QVariant) : M unit :=
  executeJSCall method args CbProcessResult.

Definition setBundleUrl (u : string) : M unit :=
  cur ← get bundleUrl;
  if decide (cur = u) then ret tt else modify (put_bundleUrl u).

Definition setPluginsPath (p : string) : M unit :=
  cur ← get pluginsPath;
  if decide (cur = p) then ret tt else modify (put_pluginsPath p).

Definition setExecutorName (n : string) : M unit :=
  cur ← get executorName;
  if decide (cur = n) then ret tt else modify (put_executorName n).

(** The disk cache that [setNetworkAccessManager] may install lives in the
    access manager, outside the bridge. *)
Definition setNetworkAccessManager (n : option ptr) : M unit :=
  cur ← get nam;
  if decide (cur = n) then ret tt
  else modify (put_nam n);; _ ← deref nam; ret tt.

Definition sourcesFinished : M unit :=
  emit (EvSingleShot 200 TkExecuteApplicationScript);;
  push_timer TkExecuteApplicationScript.

Definition sourcesLoadFailed : M unit :=
  emit (EvShowErrorMessage "Failed to load source code").

Definition loadSource : M unit :=
  n ← get nam;
  match n with
  | None => qCritical "No QNetworkAccessManager for loading sources"
  | Some n => src ← deref sourceCode; emit (EvLoadSource src n)
  end.

Definition registerModule (env : Env) (o : QObject) : M unit :=
  if qobject_cast_ReactModuleInterface env o then
    emit (EvSetBridge o);;
    moduleData ← newModuleData env o;
    modify (fun p => put_modules (<[md_id moduleData := Some moduleData]> (modules p)) p)
  else qWarning "A module loader exported an invalid module".

Definition initModules (env : Env) : M unit :=
  plugins ← pluginModules env;
  src ← new;
  modify (put_sourceCode (Some src));;
  il ← new;
  modify (put_imageLoader (Some il));;
  ui ← new;
  modify (put_uiManager (Some ui));;
  url ← get bundleUrl;
  emit (EvSetScriptUrl src url);;
  emit (EvConnectSourceCode src);;
  for_each (internalModules ++ plugins
            ++ [ mkObject "ReactSourceCode"; mkObject "ReactImageLoader";
                 mkObject "ReactUIManager" ])
           (registerModule env).

(** The loop of [injectModules]; [cfg] is the local [moduleConfig]. *)
Fixpoint moduleConfig (mds : list (option ReactModuleData))
    (cfg : list (string * QVariant)) : M (list (string * QVariant)) :=
  match mds with
  | [] => ret cfg
  | None :: _ => fault NullPointer
  | Some md :: rest => moduleConfig rest (QVariantMap_insert (md_name md) (md_info md) cfg)
  end.

Definition injectModules : M unit :=
  mds ← get modules;
  cfg ← moduleConfig (QMap_values mds) [];
  e ← deref executor;
  emit (EvInjectJson e "__fbBatchedBridgeConfig" (VMap [("remoteModuleConfig", VMap cfg)])).

Definition init (env : Env) : M unit :=
  setupExecutor env;;
  initModules env;;
  injectModules;;
  loadSource.

Definition deleteModuleData (md : option ReactModuleData) : M unit :=
  match md with
  | Some m => emit (EvDeleteModuleData (md_id m))
  | None => ret tt
  end.

Definition reload (env : Env) : M unit :=
  setReady false;;
  e ← deref executor;
  emit (EvDeleteLater e);;
  setupExecutor env;;
  mds ← get modules;
  for_each (QMap_values mds) deleteModuleData;;
  modify (put_modules ∅);;
  initModules env;;
  injectModules;;
  loadSource.

(** Modelled from the spec: the positions of the three sequences in a batch.
    The enumeration belongs to reactbridge.h; the spec gives the wire shape
    as the "ordered triple" of module IDs, method indices and parameter
    lists. *)
Definition FieldRequestModuleIDs : nat := 0.
Definition FieldMethodIDs : nat := 1.
Definition FieldParams : nat := 2.

(** The body of the loop in [processResult]. *)
Definition processEntry (env : Env) (moduleIDs methodIDs paramArrays : list QVariant)
    (i : nat) : M unit :=
  moduleID ← QList_at moduleIDs i;
  moduleData ← modules_at (toInt env moduleID);
  match moduleData with
  | None => qCritical "Could not find referenced module"
  | Some md =>
      methodID ← QList_at methodIDs i;
      match method md (toInt env methodID) with
      | None => qCritical "Request for unsupported method"
      | Some m =>
          params ← QList_at paramArrays i;
          emit (EvInvoke md m (toList params))
      end
  end.

Definition processResult (env : Env) (doc : QJsonDocument) : M unit :=
  if isNull doc then ret tt
  else if negb (isArray doc) then
    qCritical "Returned document from executor in unexpected form"
  else
    let requests := toList (toVariant doc) in
    r0 ← QList_at requests FieldRequestModuleIDs;
    r1 ← QList_at requests FieldMethodIDs;
    r2 ← QList_at requests FieldParams;
    let moduleIDs := toList r0 in
    let methodIDs := toList r1 in
    let paramArrays := toList r2 in
    for_each (seq 0 (length moduleIDs))
             (processEntry env moduleIDs methodIDs paramArrays).

Definition applicationScriptDone : M unit :=
  emit (EvSingleShot 0 TkFlushedQueue);;
  push_timer TkFlushedQueue.

(** ** The event loop *)

(** The lambda handed to [executeJSCall]. *)
Definition runCallback (env : Env) (cb : Callback) (doc : QJsonDocument) : M unit :=
  match cb with
  | CbProcessResult => processResult env doc
  | CbProcessResultThenReady => processResult env doc;; setReady true
  end.

(** The lambda handed to [QTimer::singleShot]. *)
Definition runTimer (t : TimerTask) : M unit :=
  match t with
  | TkExecuteApplicationScript =>
      e ← deref executor;
      src ← deref sourceCode;
      url ← get bundleUrl;
      emit (EvExecuteApplicationScript e src url)
  | TkFlushedQueue => executeJSCall "flushedQueue" [] CbProcessResultThenReady
  end.

Definition take_timer (i : nat) : M (option TimerTask) :=
  fun s => Done (timers s !! i)
                {| d := d s; nextPtr := nextPtr s;
                   moduleDataCount := moduleDataCount s;
                   timers := delete i (timers s); calls := calls s;
                   trace := trace s |}.

Definition take_call (i : nat) : M (option PendingCall) :=
  fun s => Done (calls s !! i)
                {| d := d s; nextPtr := nextPtr s;
                   moduleDataCount := moduleDataCount s;
                   timers := timers s; calls := delete i (calls s);
                   trace := trace s |}.

(** How many times the slot [applicationScriptDone] is connected to the
    signal of executor [e]. *)
Definition is_connect (e : ptr) (ev : Event) : bool :=
  match ev with
  | EvConnectApplicationScriptDone e' => bool_decide (e = e')
  | _ => false
  end.

Definition connections (e : ptr) (s : Bridge) : nat :=
  length (filter (fun ev => is_connect e ev = true) (trace s)).

Fixpoint repeatM (n : nat) (m : M unit) : M unit :=
  match n with
  | O => ret tt
  | S k => m;; repeatM k m
  end.

(** What can happen to a bridge: its owner calls one of its members, one of
    the objects it is connected to emits a signal, a timer fires, or an
    executor answers a pending call.  A timer or call index that is not
    queued leaves the bridge as it is. *)
Inductive Step : Type :=
| CallInit
| CallReload
| CallEnqueueJSCall (module method : string) (args : list QVariant)
| CallInvokeAndProcess (method : string) (args : list QVariant)
| CallSetBundleUrl (u : string)
| CallSetPluginsPath (p : string)
| CallSetExecutorName (n : string)
| CallSetNetworkAccessManager (n : option ptr)
| SigApplicationScriptDone (e : ptr)
| SigSourceCodeChanged
| SigLoadFailed
| TimerFires (i : nat)
| ExecutorReplies (i : nat) (doc : QJsonDocument).

Arguments TimerFires i%_nat.
Arguments ExecutorReplies i%_nat doc.

Definition step (env : Env) (st : Step) : M unit :=
  match st with
  | CallInit => init env
  | CallReload => reload env
  | CallEnqueueJSCall module method args => enqueueJSCall module method args
  | CallInvokeAndProcess method args => invokeAndProcess method args
  | CallSetBundleUrl u => setBundleUrl u
  | CallSetPluginsPath p => setPluginsPath p
  | CallSetExecutorName n => setExecutorName n
  | CallSetNetworkAccessManager n => setNetworkAccessManager n
  | SigApplicationScriptDone e =>
      fun s => repeatM (connections e s) applicationScriptDone s
  | SigSourceCodeChanged => sourcesFinished
  | SigLoadFailed => sourcesLoadFailed
  | TimerFires i =>
      t ← take_timer i;
      match t with Some t => runTimer t | None => ret tt end
  | ExecutorReplies i doc =>
      c ← take_call i;
      match c with Some c => runCallback env (call_callback c) doc | None => ret tt end
  end.

(** A run: the steps one after the other; a fault ends it. *)
Definition run (env : Env) (steps : list Step) : M unit :=
  for_each steps (step env).

(** ** Reading outcomes *)

Definition final {A} (o : Outcome A) : Bridge :=
  match o with Done _ s => s | Crash _ s => s end.

Definition is_invoke (ev : Event) : bool :=
  match ev with EvInvoke _ _ _ => true | _ => false end.

Definition is_error (ev : Event) : bool :=
  match ev with EvCritical _ | EvWarning _ => true | _ => false end.

(** The registry lookup that [processResult] performs: a module is found
    when its ID is a key of the map and the stored pointer is not null. *)
Definition lookupModule (reg : gmap Z (option ReactModuleData)) (id : Z)
  : option ReactModuleData :=
  mjoin (reg !! id).

(** What one batch entry leads to, given the registry: an invocation of the
    resolved method with the entry's own parameter list, or one of the two
    error reports. *)
Definition entryEvent (env : Env) (reg : gmap Z (option ReactModuleData))
    (moduleID methodID params : QVariant) : Event :=
  match lookupModule reg (toInt env moduleID) with
  | None => EvCritical "Could not find referenced module"
  | Some md =>
      match method md (toInt env methodID) with
      | None => EvCritical "Request for unsupported method"
      | Some m => EvInvoke md m (toList params)
      end
  end.

(** The events of a whole batch, entry by entry in index order. *)
Fixpoint batchEvents (env : Env) (reg : gmap Z (option ReactModuleData))
    (moduleIDs methodIDs paramArrays : list QVariant) : list Event :=
  match moduleIDs, methodIDs, paramArrays with
  | i :: moduleIDs', m :: methodIDs', p :: paramArrays' =>
      entryEvent env reg i m p :: batchEvents env reg moduleIDs' methodIDs' paramArrays'
  | _, _, _ => []
  end.

(** The events a member function added to the trace. *)
Definition newEvents (before after : Bridge) : list Event :=
  drop (length (trace before)) (trace after).

(** A registry that only gained null entries for keys it did not have. *)
Definition nullExtension (reg reg' : gmap Z (option ReactModuleData)) : Prop :=
  ∀ id, reg' !! id = reg !! id ∨ (reg !! id = None ∧ reg' !! id = Some None).

(** ** Sample environments and bridges *)

(** An environment in which only the default executor class is registered,
    there are no plugins, every candidate module implements the module
    interface, and module IDs come from a process-wide counter. *)
Definition sampleEnv : Env :=
  {| QString_toInt := fun _ => 0;
     QMetaType_type := fun n =>
       if String.eqb n "ReactNetExecutor*" then MetaObject true else UnknownType;
     UbuntuComponentsLoader_availableModules := [];
     QDir_entryList := fun _ => [];
     QPluginLoader_instance := fun _ _ => NotAModuleLoader;
     qobject_cast_ReactModuleInterface := fun _ => true;
     ReactModuleData_new := fun n o =>
       mkModuleData (Z.of_nat n) (className o) VInvalid
                    (methodAt [mkMethod "method0"; mkMethod "method1"]) |}.

Definition moduleA : ReactModuleData :=
  mkModuleData 0 "A" VInvalid (methodAt [mkMethod "a0"; mkMethod "a1"]).

Definition moduleB : ReactModuleData :=
  mkModuleData 1 "B" VInvalid (methodAt [mkMethod "b0"]).

(** A bridge with executor [1], a network access manager and the registry
    of the spec's scenario: [A] (two methods) under ID 0, [B] (one method)
    under ID 1. *)
Definition bridgeAB : Bridge :=
  {| d := {| ready := false; executorName := "ReactNetExecutor";
             executor := Some 1%nat; nam := Some 2%nat; uiManager := None;
             imageLoader := None; sourceCode := None; bundleUrl := "";
             pluginsPath := "./plugins";
             modules := <[0 := Some moduleA]> (<[1 := Some moduleB]> ∅) |};
     nextPtr := 3%nat; moduleDataCount := 2%nat;
     timers := []; calls := []; trace := [] |}.

(** A freshly constructed bridge that was given a network access manager. *)
Definition bridgeWithNam : Bridge :=
  with_d (put_nam (Some 0%nat)) ReactBridge_new.

(** ** States and predicates of the statements below *)

(** The bridge [s] after a dispatch that left the registry as [reg] and
    added [evs] to the trace, everything else untouched. *)
Definition dispatched (reg : gmap Z (option ReactModuleData)) (evs : list Event)
    (s : Bridge) : Bridge :=
  {| d := put_modules reg (d s); nextPtr := nextPtr s;
     moduleDataCount := moduleDataCount s; timers := timers s;
     calls := calls s; trace := trace s ++ evs |}.

(** The spec's wording for malformed batches: a batch whose sequences
    differ in length is rejected, with a report and without any
    invocation. *)
Definition rejected (env : Env) (s : Bridge) (doc : QJsonDocument) : Prop :=
  ∃ s', processResult env doc s = Done tt s'
        ∧ Exists (fun ev => is_error ev = true) (newEvents s s')
        ∧ Forall (fun ev => is_invoke ev = false) (newEvents s s').

Definition malformedBatchRejected (env : Env) (s : Bridge)
    (moduleIDs methodIDs paramArrays : list QVariant) : Prop :=
  ¬ (length moduleIDs = length methodIDs ∧ length moduleIDs = length paramArrays) →
  rejected env s (DocArray [VList moduleIDs; VList methodIDs; VList paramArrays]).

(** [m] maintains [I]: whatever state [m] stops in, normally or at a fault,
    still satisfies [I]. *)
Definition maintains {A} (I : Bridge → Prop) (m : M A) : Prop :=
  ∀ s, I s → I (final (m s)).

Definition readyIs (b : bool) (s : Bridge) : Prop := ready (d s) = b.

(** The pending call [i] has been taken out of the queue. *)
Definition answered (i : nat) (s : Bridge) : Bridge :=
  {| d := d s; nextPtr := nextPtr s; moduleDataCount := moduleDataCount s;
     timers := timers s; calls := delete i (calls s); trace := trace s |}.

(** [setReady(true)] on a bridge that was not ready. *)
Definition madeReady (s : Bridge) : Bridge :=
  {| d := put_ready true (d s); nextPtr := nextPtr s;
     moduleDataCount := moduleDataCount s; timers := timers s;
     calls := calls s; trace := trace s ++ [EvReadyChanged] |}.

Definition isReload (st : Step) : bool :=
  match st with CallReload => true | _ => false end.

Definition noReload (steps : list Step) : bool :=
  forallb (fun st => negb (isReload st)) steps.

Definition becomesReady (s s' : Bridge) : bool :=
  negb (ready (d s)) && ready (d s').

(** The number of steps of a run at which [ready] goes from false to
    true. *)
Fixpoint transitions (env : Env) (steps : list Step) (s : Bridge) : nat :=
  match steps with
  | [] => 0%nat
  | st :: rest =>
      match step env st s with
      | Done _ s' =>
          ((if becomesReady s s' then 1 else 0) + transitions env rest s')%nat
      | Crash _ s' => if becomesReady s s' then 1%nat else 0%nat
      end
  end.

(** In the trace [l], the event [b] occurs and [a] occurs before it. *)
Definition precedes (a b : Event) (l : list Event) : Prop :=
  ∃ pre post, l = pre ++ b :: post ∧ a ∈ pre.

(** A pending call that will set [ready] is a [flushedQueue] call without
    arguments, and the trace shows where it comes from: the call was made
    on the executor after the slot [applicationScriptDone] had set up its
    timer. *)
Definition drainCall (s : Bridge) (c : PendingCall) : Prop :=
  call_callback c = CbProcessResultThenReady →
  c = mkCall (call_executor c) "flushedQueue" [] CbProcessResultThenReady
  ∧ precedes (EvSingleShot 0 TkFlushedQueue)
             (EvExecuteJSCall (call_executor c) "flushedQueue" []
                              CbProcessResultThenReady)
             (trace s).

(** Where drain timers and drain calls come from. *)
Definition causal (s : Bridge) : Prop :=
  (TkFlushedQueue ∈ timers s → EvSingleShot 0 TkFlushedQueue ∈ trace s)
  ∧ Forall (drainCall s) (calls s).

(** The bridge [s] with [evs] added to the trace. *)
Definition emitted (evs : list Event) (s : Bridge) : Bridge :=
  {| d := d s; nextPtr := nextPtr s; moduleDataCount := moduleDataCount s;
     timers := timers s; calls := calls s; trace := trace s ++ evs |}.

(** What [setupExecutor] logs and constructs when the meta-object of the
    configured class is there: the named executor if [newInstance] yields
    one ([b] true), the default one after a warning if it does not. *)
Definition constructionEvents (b : bool) (name : string) (e : ptr) : list Event :=
  if b then [EvNewExecutor e (ByName name)]
  else [EvWarning ("Could not construct executor named " +:+ name
                   +:+ " constructing default (ReactNetExecutor)");
        EvNewExecutor e ReactNetExecutor].

Definition executorInstalled (b : bool) (s : Bridge) : Bridge :=
  {| d := put_executor (Some (nextPtr s)) (d s); nextPtr := S (nextPtr s);
     moduleDataCount := moduleDataCount s; timers := timers s; calls := calls s;
     trace := trace s
              ++ constructionEvents b (executorName (d s)) (nextPtr s)
              ++ [EvConnectApplicationScriptDone (nextPtr s);
                  EvExecutorInit (nextPtr s)] |}.

Definition is_new_executor (ev : Event) : bool :=
  match ev with EvNewExecutor _ _ => true | _ => false end.

Definition is_warning (ev : Event) : bool :=
  match ev with EvWarning _ => true | _ => false end.

Definition is_load_source (ev : Event) : bool :=
  match ev with EvLoadSource _ _ => true | _ => false end.

Definition is_inject (ev : Event) : bool :=
  match ev with EvInjectJson _ _ _ => true | _ => false end.

(** [setReady(false)]. *)
Definition notReady (s : Bridge) : Bridge :=
  if ready (d s) then emitted [EvReadyChanged] (with_d (put_ready false) s) else s.

Definition deleteEvents (mds : list (option ReactModuleData)) : list Event :=
  omap (fun md : option ReactModuleData =>
          (fun m => EvDeleteModuleData (md_id m)) <$> md) mds.

(** The modules and the warnings that the loop over the plugin directory
    produces. *)
Fixpoint pluginObjects (env : Env) (dir : string) (files : list string)
    (acc : list QObject) : list QObject :=
  match files with
  | [] => acc
  | f :: rest =>
      match QPluginLoader_instance env dir f with
      | ModuleLoader ms => pluginObjects env dir rest (acc ++ ms)
      | _ => pluginObjects env dir rest acc
      end
  end.

Fixpoint pluginWarnings (env : Env) (dir : string) (files : list string) : list Event :=
  match files with
  | [] => []
  | f :: rest =>
      match QPluginLoader_instance env dir f with
      | NotAPlugin err =>
          EvWarning ("Found non-plugin library in plugin path " +:+ f +:+ " " +:+ err)
          :: pluginWarnings env dir rest
      | NotAModuleLoader =>
          EvWarning "Cound not find ReactModuleLoader interface"
          :: pluginWarnings env dir rest
      | ModuleLoader _ => pluginWarnings env dir rest
      end
  end.

(** Every candidate module of one registry build, in registration order. *)
Definition candidateModules (env : Env) (dir : string) : list QObject :=
  internalModules
  ++ pluginObjects env dir (QDir_entryList env dir)
       (UbuntuComponentsLoader_availableModules env
        ++ [ mkObject "UbuntuScrollViewManager"; mkObject "UbuntuNavigatorManager";
             mkObject "UbuntuPageManager"; mkObject "UbuntuTextFieldManager";
             mkObject "UbuntuDatePickerManager" ])
  ++ [ mkObject "ReactSourceCode"; mkObject "ReactImageLoader";
       mkObject "ReactUIManager" ].

(** The registry after registering [objs] on top of [reg], when [n]
    [ReactModuleData] objects were constructed before. *)
Fixpoint registryOf (env : Env) (objs : list QObject) (n : nat)
    (reg : gmap Z (option ReactModuleData)) : gmap Z (option ReactModuleData) :=
  match objs with
  | [] => reg
  | o :: rest =>
      if qobject_cast_ReactModuleInterface env o then
        registryOf env rest (S n)
          (<[md_id (ReactModuleData_new env n o) := Some (ReactModuleData_new env n o)]> reg)
      else registryOf env rest n reg
  end.

Fixpoint registerCount (env : Env) (objs : list QObject) (n : nat) : nat :=
  match objs with
  | [] => n
  | o :: rest =>
      if qobject_cast_ReactModuleInterface env o then registerCount env rest (S n)
      else registerCount env rest n
  end.

Definition registerEvents (env : Env) (objs : list QObject) : list Event :=
  (fun o => if qobject_cast_ReactModuleInterface env o then EvSetBridge o
            else EvWarning "A module loader exported an invalid module") <$> objs.

(** The configuration built from the modules of a registry. *)
Fixpoint configOf (mds : list (option ReactModuleData)) (cfg : list (string * QVariant))
  : list (string * QVariant) :=
  match mds with
  | [] => cfg
  | Some md :: rest => configOf rest (QVariantMap_insert (md_name md) (md_info md) cfg)
  | None :: rest => configOf rest cfg
  end.

(** What [initModules] adds to the trace. *)
Definition initModulesEvents (env : Env) (dir url : string) (src : ptr) : list Event :=
  pluginWarnings env dir (QDir_entryList env dir)
  ++ [EvSetScriptUrl src url; EvConnectSourceCode src]
  ++ registerEvents env (candidateModules env dir).

(** The bridge after [initModules]. *)
Definition modulesInitialised (env : Env) (s : Bridge) : Bridge :=
  {| d := put_modules
            (registryOf env (candidateModules env (pluginsPath (d s)))
                        (moduleDataCount s) (modules (d s)))
            (put_uiManager (Some (S (S (nextPtr s))))
               (put_imageLoader (Some (S (nextPtr s)))
                  (put_sourceCode (Some (nextPtr s)) (d s))));
     nextPtr := S (S (S (nextPtr s)));
     moduleDataCount := registerCount env (candidateModules env (pluginsPath (d s)))
                                      (moduleDataCount s);
     timers := timers s; calls := calls s;
     trace := trace s
              ++ initModulesEvents env (pluginsPath (d s)) (bundleUrl (d s)) (nextPtr s) |}.

(** No key of the registry holds a null pointer. *)
Definition noNullModule (reg : gmap Z (option ReactModuleData)) : Prop :=
  ∀ k v, reg !! k = Some v → is_Some v.

(** The spec's wording for [reload]: whatever bridge it is called on, [ready]
    is false afterwards, the executor has been replaced, the registry has
    been built anew from nothing, the configuration has been injected,
    source loading has been triggered, and bundle URL, plugins path and
    executor name are what they were. *)
Definition reloadAsSpecified (env : Env) (s : Bridge) : Prop :=
  ∃ s', reload env s = Done tt s'
        ∧ ready (d s') = false
        ∧ executor (d s') ≠ executor (d s)
        ∧ modules (d s')
          = registryOf env (candidateModules env (pluginsPath (d s)))
                       (moduleDataCount s) ∅
        ∧ existsb is_inject (newEvents s s') = true
        ∧ existsb is_load_source (newEvents s s') = true
        ∧ bundleUrl (d s') = bundleUrl (d s)
        ∧ pluginsPath (d s') = pluginsPath (d s)
        ∧ executorName (d s') = executorName (d s).

(** ** States and predicates of the further properties *)

(** [ReactBridge::modules]: the values of the registry, in key order. *)
Definition ReactBridge_modules (s : Bridge) : list (option ReactModuleData) :=
  QMap_values (modules (d s)).

(** Every module of the registry is stored under its own ID. *)
Definition keyedById (reg : gmap Z (option ReactModuleData)) : Prop :=
  ∀ k md, reg !! k = Some (Some md) → md_id md = k.

(** The calls of the four configuration setters. *)
Definition isConfigSetter (st : Step) : bool :=
  match st with
  | CallSetBundleUrl _ | CallSetPluginsPath _ | CallSetExecutorName _
  | CallSetNetworkAccessManager _ => true
  | _ => false
  end.

Definition noConfigSetter (steps : list Step) : bool :=
  forallb (fun st => negb (isConfigSetter st)) steps.

(** The configured values of a bridge. *)
Definition configuration (s : Bridge) : string * string * string * option ptr :=
  (bundleUrl (d s), pluginsPath (d s), executorName (d s), nam (d s)).

Definition isModuleLoader (p : PluginInstance) : bool :=
  match p with ModuleLoader _ => true | _ => false end.

(** An environment in which ["void*"] is a registered type, as it is in Qt:
    a type without meta-object. *)
Definition voidStarEnv : Env :=
  {| QString_toInt := QString_toInt sampleEnv;
     QMetaType_type := fun n =>
       if String.eqb n "void*" then NoMetaObject else QMetaType_type sampleEnv n;
     UbuntuComponentsLoader_availableModules := [];
     QDir_entryList := fun _ => [];
     QPluginLoader_instance := fun _ _ => NotAModuleLoader;
     qobject_cast_ReactModuleInterface := fun _ => true;
     ReactModuleData_new := ReactModuleData_new sampleEnv |}.

(** What [injectModules] sends to executor [e] for the registry [reg]. *)
Definition injectEvent (e : ptr) (reg : gmap Z (option ReactModuleData)) : Event :=
  EvInjectJson e "__fbBatchedBridgeConfig"
    (VMap [("remoteModuleConfig", VMap (configOf (QMap_values reg) []))]).

(** What [loadSource] does for the source-code module [src]: a load through
    the network access manager, or the complaint that there is none. *)
Definition loadEvent (s : Bridge) (src : ptr) : Event :=
  match nam (d s) with
  | Some n => EvLoadSource src n
  | None => EvCritical "No QNetworkAccessManager for loading sources"
  end.

(** The bridge after [initModules], [injectModules] and [loadSource], with
    [e] as its executor. *)
Definition modulesLoaded (env : Env) (e : ptr) (s : Bridge) : Bridge :=
  emitted [injectEvent e (modules (d (modulesInitialised env s)));
           loadEvent s (nextPtr s)]
          (modulesInitialised env s).

(** The modules that a library of the plugin directory contributes. *)
Definition loadedModules (p : PluginInstance) : list QObject :=
  match p with ModuleLoader ms => ms | _ => [] end.

(** * Properties *)

Ltac unfold_monad :=
  unfold mbind, M_bind, bind, mret, M_ret, ret, fault, get, modify,
         qCritical, qWarning, emit, deref, QList_at in *.

(** ** Null documents *)

(** C9. A null document is "no calls": [processResult] returns at once, in
    the very state it was called in, so nothing is dispatched, nothing is
    reported and no member of the bridge changes. *)
Theorem processResult_null (env : Env) (s : Bridge) :
  processResult env DocNull s = Done tt s.
Proof. reflexivity. Qed.

(** A document that is neither null nor an array is reported and dropped. *)
Lemma processResult_not_array (env : Env) (s : Bridge) o :
  processResult env (DocObject o) s
  = emit (EvCritical "Returned document from executor in unexpected form") s.
Proof. reflexivity. Qed.

(** ** Dispatch of a batch *)

Lemma nullExtension_refl reg : nullExtension reg reg.
Proof. intros id. by left. Qed.

Lemma nullExtension_trans reg1 reg2 reg3 :
  nullExtension reg1 reg2 → nullExtension reg2 reg3 → nullExtension reg1 reg3.
Proof.
  intros H12 H23 id.
  destruct (H12 id) as [E12 | [N1 S2]], (H23 id) as [E23 | [N2 S3]].
  - left. congruence.
  - right. split; congruence.
  - right. split; congruence.
  - congruence.
Qed.

Lemma nullExtension_lookupModule reg reg' id :
  nullExtension reg reg' → lookupModule reg' id = lookupModule reg id.
Proof.
  intros H. unfold lookupModule. destruct (H id) as [-> | [-> ->]]; done.
Qed.

Lemma nullExtension_insert reg (k : Z) :
  reg !! k = None → nullExtension reg (<[k := None]> reg).
Proof.
  intros Hk id. destruct (decide (k = id)) as [<- | Hne].
  - right. by rewrite lookup_insert_eq.
  - left. by rewrite lookup_insert_ne.
Qed.

Lemma dispatched_dispatched reg1 reg2 evs1 evs2 s :
  dispatched reg2 evs2 (dispatched reg1 evs1 s) = dispatched reg2 (evs1 ++ evs2) s.
Proof. unfold dispatched. simpl. by rewrite app_assoc. Qed.

Lemma dispatched_id s : dispatched (modules (d s)) [] s = s.
Proof. destruct s as [[] ? ? ? ? ?]. unfold dispatched. simpl. by rewrite app_nil_r. Qed.

(** One round of the loop: the entry's event is added, and the registry
    gains at most a null entry under the entry's module ID. *)
Lemma processEntry_spec (env : Env) moduleIDs methodIDs paramArrays i
    moduleID methodID params (s : Bridge) :
  moduleIDs !! i = Some moduleID →
  methodIDs !! i = Some methodID →
  paramArrays !! i = Some params →
  ∃ reg', processEntry env moduleIDs methodIDs paramArrays i s
          = Done tt (dispatched reg'
                       [entryEvent env (modules (d s)) moduleID methodID params] s)
          ∧ nullExtension (modules (d s)) reg'.
Proof.
  intros Hi Hm Hp.
  unfold processEntry, entryEvent, lookupModule, modules_at. unfold_monad.
  rewrite Hi. simpl.
  destruct (modules (d s) !! toInt env moduleID) as [[md|]|] eqn:Hreg; simpl.
  - exists (modules (d s)). split; [| apply nullExtension_refl].
    rewrite Hm. simpl. destruct (method md _); [rewrite Hp |];
      destruct s as [[] ? ? ? ? ?]; reflexivity.
  - exists (modules (d s)). split; [| apply nullExtension_refl].
    destruct s as [[] ? ? ? ? ?]; reflexivity.
  - exists (<[toInt env moduleID := None]> (modules (d s))).
    split; [reflexivity | by apply nullExtension_insert].
Qed.

(** The loop from index [length pm] on, where [pm], [pt], [pp] are the
    entries already handled; [reg] is the registry the batch started
    with. *)
Lemma processEntries_spec (env : Env) reg rm :
  ∀ rt rp pm pt pp (s : Bridge),
    length pm = length pt → length pm = length pp →
    (length rm ≤ length rt)%nat → (length rm ≤ length rp)%nat →
    nullExtension reg (modules (d s)) →
    ∃ reg', for_each (seq (length pm) (length rm))
                     (processEntry env (pm ++ rm) (pt ++ rt) (pp ++ rp)) s
            = Done tt (dispatched reg' (batchEvents env reg rm rt rp) s)
            ∧ nullExtension reg reg'.
Proof.
  induction rm as [|x rm IH]; intros rt rp pm pt pp s Ht Hp Hlt Hlp Hreg.
  - exists (modules (d s)). simpl. rewrite dispatched_id. by split.
  - destruct rt as [|y rt]; [simpl in Hlt; lia |].
    destruct rp as [|z rp]; [simpl in Hlp; lia |].
    simpl in Hlt, Hlp. simpl length. simpl seq. simpl for_each.
    destruct (processEntry_spec env (pm ++ x :: rm) (pt ++ y :: rt) (pp ++ z :: rp)
                (length pm) x y z s) as (reg1 & E1 & X1).
    { by rewrite list_lookup_middle. }
    { by rewrite list_lookup_middle. }
    { by rewrite list_lookup_middle. }
    destruct (IH rt rp (pm ++ [x]) (pt ++ [y]) (pp ++ [z])
                (dispatched reg1
                   [entryEvent env (modules (d s)) x y z] s))
      as (reg2 & E2 & X2).
    { rewrite !length_app. simpl. lia. }
    { rewrite !length_app. simpl. lia. }
    { lia. }
    { lia. }
    { simpl. eapply nullExtension_trans; eauto. }
    exists reg2. split; [| done].
    unfold mbind, M_bind, bind. rewrite E1.
    rewrite length_app, Nat.add_1_r in E2. rewrite <- !app_assoc in E2. simpl in E2.
    rewrite E2. rewrite dispatched_dispatched. simpl.
    unfold entryEvent. by rewrite (nullExtension_lookupModule reg (modules (d s))).
Qed.

(** What [processResult] does with an array whose first three elements
    exist and whose method-index and parameter sequences are at least as
    long as the module-ID sequence. *)
Lemma processResult_array (env : Env) (s : Bridge) requests r0 r1 r2 :
  requests !! 0%nat = Some r0 →
  requests !! 1%nat = Some r1 →
  requests !! 2%nat = Some r2 →
  (length (toList r0) ≤ length (toList r1))%nat →
  (length (toList r0) ≤ length (toList r2))%nat →
  ∃ reg', processResult env (DocArray requests) s
          = Done tt (dispatched reg'
                       (batchEvents env (modules (d s)) (toList r0) (toList r1)
                                    (toList r2)) s)
          ∧ nullExtension (modules (d s)) reg'.
Proof.
  intros H0 H1 H2 L1 L2.
  unfold processResult. simpl. unfold_monad.
  unfold FieldRequestModuleIDs, FieldMethodIDs, FieldParams.
  rewrite H0, H1, H2. simpl.
  apply (processEntries_spec env (modules (d s)) (toList r0) (toList r1) (toList r2)
           [] [] [] s); auto using nullExtension_refl.
Qed.

Lemma batchEvents_lookup (env : Env) reg moduleIDs :
  ∀ methodIDs paramArrays i moduleID methodID params,
    moduleIDs !! i = Some moduleID →
    methodIDs !! i = Some methodID →
    paramArrays !! i = Some params →
    batchEvents env reg moduleIDs methodIDs paramArrays !! i
    = Some (entryEvent env reg moduleID methodID params).
Proof.
  induction moduleIDs as [|x xs IH]; intros [|y ys] [|z zs] [|i] a b c Ha Hb Hc;
    simplify_eq/=; eauto.
Qed.

Lemma batchEvents_length (env : Env) reg moduleIDs :
  ∀ methodIDs paramArrays,
    (length moduleIDs ≤ length methodIDs)%nat →
    (length moduleIDs ≤ length paramArrays)%nat →
    length (batchEvents env reg moduleIDs methodIDs paramArrays) = length moduleIDs.
Proof.
  induction moduleIDs as [|x xs IH]; intros [|y ys] [|z zs] H1 H2;
    simpl in *; try lia. rewrite IH; lia.
Qed.

Lemma newEvents_dispatched reg evs s : newEvents s (dispatched reg evs s) = evs.
Proof. unfold newEvents, dispatched. simpl. by rewrite drop_app_length. Qed.

Lemma entryEvent_resolved (env : Env) reg moduleID methodID params md m :
  lookupModule reg (toInt env moduleID) = Some md →
  method md (toInt env methodID) = Some m →
  entryEvent env reg moduleID methodID params = EvInvoke md m (toList params).
Proof. intros H1 H2. unfold entryEvent. by rewrite H1, H2. Qed.

Lemma entryEvent_no_module (env : Env) reg moduleID methodID params :
  lookupModule reg (toInt env moduleID) = None →
  entryEvent env reg moduleID methodID params
  = EvCritical "Could not find referenced module".
Proof. intros H1. unfold entryEvent. by rewrite H1. Qed.

Lemma entryEvent_no_method (env : Env) reg moduleID methodID params md :
  lookupModule reg (toInt env moduleID) = Some md →
  method md (toInt env methodID) = None →
  entryEvent env reg moduleID methodID params
  = EvCritical "Request for unsupported method".
Proof. intros H1 H2. unfold entryEvent. by rewrite H1, H2. Qed.

(** C3. A batch with three sequences of equal length is worked through in
    index order and to the end: the bridge does not fault, it adds exactly
    one event per entry to the trace, and the [i]-th of them is what the
    [i]-th entry resolves to in the registry the batch started with, the
    invocation of the resolved method with the [i]-th parameter list or the
    report of the module or method that was not found.  An entry that does
    not resolve therefore costs one report and nothing else: the entries
    after it are handled as if it had not been there.  Apart from the trace,
    the only member that can differ afterwards is the registry, which may
    have gained null entries. *)
Theorem processResult_dispatches_in_order (env : Env) (s : Bridge) requests r0 r1 r2 :
  requests !! 0%nat = Some r0 →
  requests !! 1%nat = Some r1 →
  requests !! 2%nat = Some r2 →
  length (toList r0) = length (toList r1) →
  length (toList r0) = length (toList r2) →
  ∃ reg' s',
    processResult env (DocArray requests) s = Done tt s'
    ∧ s' = dispatched reg' (newEvents s s') s
    ∧ nullExtension (modules (d s)) reg'
    ∧ length (newEvents s s') = length (toList r0)
    ∧ ∀ i moduleID methodID params,
        toList r0 !! i = Some moduleID →
        toList r1 !! i = Some methodID →
        toList r2 !! i = Some params →
        newEvents s s' !! i
        = Some (match lookupModule (modules (d s)) (toInt env moduleID) with
                | None => EvCritical "Could not find referenced module"
                | Some md =>
                    match method md (toInt env methodID) with
                    | None => EvCritical "Request for unsupported method"
                    | Some m => EvInvoke md m (toList params)
                    end
                end).
Proof.
  intros H0 H1 H2 L1 L2.
  destruct (processResult_array env s requests r0 r1 r2) as (reg' & E & X);
    [done | done | done | lia | lia |].
  exists reg', (dispatched reg'
                  (batchEvents env (modules (d s)) (toList r0) (toList r1) (toList r2)) s).
  rewrite newEvents_dispatched. repeat split; [done | done | |].
  - apply batchEvents_length; lia.
  - intros i a b c Ha Hb Hc. by apply batchEvents_lookup.
Qed.

(** The spec's scenario: the batch [[0,1,0], [1,0,5], [[],[x],[]]] against
    [A] (ID 0, two methods) and [B] (ID 1, one method). *)
Lemma processResult_dispatches_in_order_witness :
  ∃ reg' s',
    processResult sampleEnv
      (DocArray [VList [VNum 0; VNum 1; VNum 0]; VList [VNum 1; VNum 0; VNum 5];
                 VList [VList []; VList [VString "x"]; VList []]]) bridgeAB
    = Done tt s'
    ∧ s' = dispatched reg' (newEvents bridgeAB s') bridgeAB
    ∧ nullExtension (modules (d bridgeAB)) reg'
    ∧ length (newEvents bridgeAB s') = 3%nat
    ∧ ∀ i moduleID methodID params,
        [VNum 0; VNum 1; VNum 0] !! i = Some moduleID →
        [VNum 1; VNum 0; VNum 5] !! i = Some methodID →
        [VList []; VList [VString "x"]; VList []] !! i = Some params →
        newEvents bridgeAB s' !! i
        = Some (match lookupModule (modules (d bridgeAB)) (toInt sampleEnv moduleID) with
                | None => EvCritical "Could not find referenced module"
                | Some md =>
                    match method md (toInt sampleEnv methodID) with
                    | None => EvCritical "Request for unsupported method"
                    | Some m => EvInvoke md m (toList params)
                    end
                end).
Proof.
  apply (processResult_dispatches_in_order sampleEnv bridgeAB
           [VList [VNum 0; VNum 1; VNum 0]; VList [VNum 1; VNum 0; VNum 5];
            VList [VList []; VList [VString "x"]; VList []]]
           (VList [VNum 0; VNum 1; VNum 0]) (VList [VNum 1; VNum 0; VNum 5])
           (VList [VList []; VList [VString "x"]; VList []]));
    reflexivity.
Defined.

(** The trace of that scenario: [A.a1()], [B.b0(x)], and one report for the
    method index 5 that [A] does not have. *)
Example scenario_trace :
  trace (final (processResult sampleEnv
                  (DocArray [VList [VNum 0; VNum 1; VNum 0];
                             VList [VNum 1; VNum 0; VNum 5];
                             VList [VList []; VList [VString "x"]; VList []]])
                  bridgeAB))
  = [EvInvoke moduleA (mkMethod "a1") [];
     EvInvoke moduleB (mkMethod "b0") [VString "x"];
     EvCritical "Request for unsupported method"].
Proof. vm_compute. reflexivity. Qed.

(** ** Batches whose sequences differ in length *)

Lemma batchEvents_take (env : Env) reg moduleIDs :
  ∀ methodIDs paramArrays,
    batchEvents env reg moduleIDs (take (length moduleIDs) methodIDs)
                (take (length moduleIDs) paramArrays)
    = batchEvents env reg moduleIDs methodIDs paramArrays.
Proof.
  induction moduleIDs as [|x xs IH]; intros [|y ys] [|z zs]; simpl; try done.
  by rewrite IH.
Qed.

(** C2, as the code has it.  Only the outer shape of a document is checked:
    a document that is not null and not an array is dropped as a whole with
    one report and nothing dispatched.  The lengths of the three sequences
    are never compared.  The loop runs over the module IDs, so when the
    method indices and the parameter lists are at least as many as the
    module IDs, the batch is dispatched like the equal-length batch obtained
    by cutting the two longer sequences down: no report is made about the
    mismatch, the surplus is ignored, and the bridge does not fault. *)
Theorem processResult_ignores_surplus (env : Env) (s : Bridge)
    o moduleIDs methodIDs paramArrays :
  (length moduleIDs ≤ length methodIDs)%nat →
  (length moduleIDs ≤ length paramArrays)%nat →
  processResult env (DocObject o) s
  = Done tt (dispatched (modules (d s))
               [EvCritical "Returned document from executor in unexpected form"] s)
  ∧ ∃ reg',
      processResult env
        (DocArray [VList moduleIDs; VList methodIDs; VList paramArrays]) s
      = Done tt (dispatched reg'
                   (batchEvents env (modules (d s)) moduleIDs
                      (take (length moduleIDs) methodIDs)
                      (take (length moduleIDs) paramArrays)) s)
      ∧ nullExtension (modules (d s)) reg'.
Proof.
  intros L1 L2. split.
  - destruct s as [[] ? ? ? ? ?]. reflexivity.
  - rewrite batchEvents_take.
    by apply (processResult_array env s _ (VList moduleIDs) (VList methodIDs)
                (VList paramArrays)).
Qed.

Lemma processResult_ignores_surplus_witness :
  processResult sampleEnv (DocObject []) bridgeAB
  = Done tt (dispatched (modules (d bridgeAB))
               [EvCritical "Returned document from executor in unexpected form"]
               bridgeAB)
  ∧ ∃ reg',
      processResult sampleEnv
        (DocArray [VList [VNum 0]; VList [VNum 0; VNum 9]; VList [VList []; VList []]])
        bridgeAB
      = Done tt (dispatched reg'
                   (batchEvents sampleEnv (modules (d bridgeAB)) [VNum 0]
                      (take (length [VNum 0]) [VNum 0; VNum 9])
                      (take (length [VNum 0]) [VList []; VList []])) bridgeAB)
      ∧ nullExtension (modules (d bridgeAB)) reg'.
Proof.
  apply (processResult_ignores_surplus sampleEnv bridgeAB []
           [VNum 0] [VNum 0; VNum 9] [VList []; VList []]); simpl; lia.
Defined.

(** One module ID, one method index, two parameter lists: the entry is
    invoked and nothing is reported. *)
Lemma mismatched_batch_is_dispatched :
  ¬ malformedBatchRejected sampleEnv bridgeAB
      [VNum 0] [VNum 0] [VList []; VList []].
Proof.
  intros H. destruct H as (s' & E & Herr & _).
  - simpl. lia.
  - vm_compute in E. injection E as <-.
    vm_compute in Herr. apply Exists_cons in Herr as [Herr | Herr].
    + discriminate.
    + by apply Exists_nil in Herr.
Qed.

(** ** The registry during dispatch *)

(** C1 fails on the code.  Looking up a module ID that is not registered
    goes through [QMap::operator[]], which inserts the ID with a null
    pointer: after the batch [[7], [0], [[]]] the registry of [bridgeAB] has
    a key it did not have before. *)
Theorem processResult_inserts_null_entry :
  ∃ s', processResult sampleEnv
          (DocArray [VList [VNum 7]; VList [VNum 0]; VList [VList []]]) bridgeAB
        = Done tt s'
        ∧ modules (d bridgeAB) !! 7 = None
        ∧ modules (d s') !! 7 = Some None
        ∧ modules (d s') ≠ modules (d bridgeAB)
        ∧ trace s' = [EvCritical "Could not find referenced module"].
Proof.
  eexists. split; [vm_compute; reflexivity |].
  assert (H1 : modules (d bridgeAB) !! 7 = None) by (vm_compute; reflexivity).
  split; [exact H1 |]. split; [vm_compute; reflexivity |].
  split; [| vm_compute; reflexivity].
  intros Heq. apply (f_equal (fun m => m !! 7)) in Heq.
  rewrite H1 in Heq. vm_compute in Heq. discriminate.
Qed.

(** What does hold: the registry only ever gains null entries, so every
    lookup resolves after the batch as it did before. *)
Lemma processResult_preserves_lookup (env : Env) (s : Bridge) requests r0 r1 r2 s' :
  requests !! 0%nat = Some r0 →
  requests !! 1%nat = Some r1 →
  requests !! 2%nat = Some r2 →
  (length (toList r0) ≤ length (toList r1))%nat →
  (length (toList r0) ≤ length (toList r2))%nat →
  processResult env (DocArray requests) s = Done tt s' →
  ∀ id, lookupModule (modules (d s')) id = lookupModule (modules (d s)) id.
Proof.
  intros H0 H1 H2 L1 L2 E id.
  destruct (processResult_array env s requests r0 r1 r2) as (reg' & E' & X);
    try done.
  rewrite E' in E. injection E as <-. simpl. by apply nullExtension_lookupModule.
Qed.

(** ** Batches that refer to modules the registry does not have *)

Lemma batchEvents_unresolved (env : Env) reg moduleIDs :
  ∀ methodIDs paramArrays,
    length moduleIDs = length methodIDs →
    length moduleIDs = length paramArrays →
    Forall (fun id => lookupModule reg (toInt env id) = None) moduleIDs →
    batchEvents env reg moduleIDs methodIDs paramArrays
    = replicate (length moduleIDs) (EvCritical "Could not find referenced module").
Proof.
  induction moduleIDs as [|x xs IH]; intros [|y ys] [|z zs] L1 L2 Hall;
    simplify_eq/=; try done.
  apply Forall_cons in Hall as [Hx Hxs].
  rewrite entryEvent_no_module by done. f_equal. by apply IH.
Qed.

(** C5. There is no generation check in [processResult]; what protects the
    registry built by [reload] from a batch that was produced against the
    one before is the lookup itself.  In a batch processed after [reload],
    every entry whose module ID does not resolve in the new registry
    (whether or not it did before [reload]) ends in the report of a module
    that could not be found, and in nothing else.  When none of the module
    IDs of the batch resolves, the new events are exactly one such report
    per entry, and no handler of a module of the new registry is invoked.
    Either way every lookup in the new registry gives afterwards what it
    gave before. *)
Theorem straggler_batch_unresolved (env : Env) (s0 s : Bridge) requests r0 r1 r2 :
  reload env s0 = Done tt s →
  requests !! 0%nat = Some r0 →
  requests !! 1%nat = Some r1 →
  requests !! 2%nat = Some r2 →
  length (toList r0) = length (toList r1) →
  length (toList r0) = length (toList r2) →
  ∃ s', processResult env (DocArray requests) s = Done tt s'
        ∧ length (newEvents s s') = length (toList r0)
        ∧ (∀ i moduleID,
             toList r0 !! i = Some moduleID →
             lookupModule (modules (d s)) (toInt env moduleID) = None →
             newEvents s s' !! i
             = Some (EvCritical "Could not find referenced module"))
        ∧ (Forall (fun id => lookupModule (modules (d s)) (toInt env id) = None)
                  (toList r0) →
           newEvents s s'
           = replicate (length (toList r0))
                       (EvCritical "Could not find referenced module")
           ∧ Forall (fun ev => is_invoke ev = false) (newEvents s s'))
        ∧ ∀ id, lookupModule (modules (d s')) id = lookupModule (modules (d s)) id.
Proof.
  intros _ H0 H1 H2 L1 L2.
  destruct (processResult_array env s requests r0 r1 r2) as (reg' & E & X);
    [done | done | done | lia | lia |].
  eexists. split; [exact E |].
  rewrite newEvents_dispatched.
  split; [apply batchEvents_length; lia |]. split; [| split].
  - intros i moduleID Hi Hnone.
    destruct (lookup_lt_is_Some_2 (toList r1) i) as [methodID Hm].
    { rewrite <- L1. by eapply lookup_lt_Some. }
    destruct (lookup_lt_is_Some_2 (toList r2) i) as [params Hp].
    { rewrite <- L2. by eapply lookup_lt_Some. }
    rewrite (batchEvents_lookup env _ _ _ _ i moduleID methodID params) by done.
    by rewrite entryEvent_no_module.
  - intros Hall. rewrite batchEvents_unresolved by done. split; [done |].
    apply Forall_forall. intros ev Hev.
    apply elem_of_replicate in Hev as [-> _]. done.
  - intros id. simpl. by apply nullExtension_lookupModule.
Qed.

(** With IDs handed out by a process-wide counter, the modules that [init]
    registered under 0 to 17 are registered under 18 to 35 after [reload];
    a batch for the old IDs 0 and 17 is reported entry by entry. *)
Lemma straggler_batch_unresolved_witness :
  ∃ s', processResult sampleEnv
          (DocArray [VList [VNum 0; VNum 17]; VList [VNum 0; VNum 1];
                     VList [VList []; VList []]])
          (final (reload sampleEnv (final (init sampleEnv bridgeWithNam))))
        = Done tt s'
        ∧ newEvents (final (reload sampleEnv (final (init sampleEnv bridgeWithNam)))) s'
          = replicate 2 (EvCritical "Could not find referenced module").
Proof.
  destruct (straggler_batch_unresolved sampleEnv (final (init sampleEnv bridgeWithNam))
           (final (reload sampleEnv (final (init sampleEnv bridgeWithNam))))
           [VList [VNum 0; VNum 17]; VList [VNum 0; VNum 1]; VList [VList []; VList []]]
           (VList [VNum 0; VNum 17]) (VList [VNum 0; VNum 1])
           (VList [VList []; VList []]))
    as (s' & E & _ & _ & Hall & _).
  - vm_compute. reflexivity.
  - reflexivity.
  - reflexivity.
  - reflexivity.
  - reflexivity.
  - reflexivity.
  - exists s'. split; [exact E |]. apply Hall.
    apply Forall_cons. split; [vm_compute; reflexivity |].
    apply Forall_cons. split; [vm_compute; reflexivity |].
    apply Forall_nil_2.
Defined.

(** ** Invariants of member functions *)

Lemma maintains_bind {A B} (I : Bridge → Prop) (m : M A) (k : A → M B) :
  maintains I m → (∀ a, maintains I (k a)) → maintains I (m ≫= k).
Proof.
  intros Hm Hk s HI. unfold mbind, M_bind, bind.
  specialize (Hm s HI). destruct (m s) as [a s' | f s']; simpl in *.
  - by apply Hk.
  - done.
Qed.

Lemma maintains_ret {A} (I : Bridge → Prop) (a : A) : maintains I (ret a).
Proof. by intros s HI. Qed.

Lemma maintains_fault {A} (I : Bridge → Prop) (f : Fault) : maintains I (@fault A f).
Proof. by intros s HI. Qed.

Lemma maintains_get {A} (I : Bridge → Prop) (f : ReactBridgePrivate → A) :
  maintains I (get f).
Proof. by intros s HI. Qed.

Lemma maintains_deref (I : Bridge → Prop) (f : ReactBridgePrivate → option ptr) :
  maintains I (deref f).
Proof. intros s HI. unfold deref. by destruct (f (d s)). Qed.

Lemma maintains_QList_at {A} (I : Bridge → Prop) (l : list A) i :
  maintains I (QList_at l i).
Proof. intros s HI. unfold QList_at. by destruct (l !! i). Qed.

Lemma maintains_for_each {A} (I : Bridge → Prop) (l : list A) (body : A → M unit) :
  (∀ x, maintains I (body x)) → maintains I (for_each l body).
Proof.
  intros Hb. induction l as [|x l IH]; simpl.
  - apply maintains_ret.
  - apply maintains_bind; auto.
Qed.

Lemma maintains_repeatM (I : Bridge → Prop) n (m : M unit) :
  maintains I m → maintains I (repeatM n m).
Proof.
  intros Hm. induction n as [|n IH]; simpl.
  - apply maintains_ret.
  - apply maintains_bind; auto.
Qed.

Create HintDb maintain discriminated.

Ltac maintain :=
  repeat first
    [ progress intros
    | solve [eauto with maintain]
    | match goal with
      | |- maintains _ (_ ≫= _) => apply maintains_bind
      | |- maintains _ (ret _) => apply maintains_ret
      | |- maintains _ (fault _) => apply maintains_fault
      | |- maintains _ (get _) => apply maintains_get
      | |- maintains _ (deref _) => apply maintains_deref
      | |- maintains _ (QList_at _ _) => apply maintains_QList_at
      | |- maintains _ (for_each _ _) => apply maintains_for_each
      | |- maintains _ (match ?x with _ => _ end) => destruct x
      end ].

Section Maintained.
(** An invariant that the primitive operations of the bridge respect, and
    a condition on the calls that may be queued under it. *)
Variable I : Bridge → Prop.
Variable okTimer : TimerTask → Prop.
Variable okCall : PendingCall → Prop.

Hypothesis I_emit : ∀ ev, maintains I (emit ev).
Hypothesis I_new : maintains I new.
Hypothesis I_newModuleData : ∀ env o, maintains I (newModuleData env o).
Hypothesis I_push_timer : ∀ t, okTimer t → maintains I (push_timer t).
Hypothesis I_take_timer : ∀ i, maintains I (take_timer i).
Hypothesis I_push_call : ∀ c, okCall c → maintains I (push_call c).
Hypothesis I_take_call : ∀ i, maintains I (take_call i).
Hypothesis I_modules_at : ∀ k, maintains I (modules_at k).
Hypothesis I_put_modules : ∀ f, maintains I (modify (fun p => put_modules (f p) p)).
Hypothesis I_put_executor : ∀ e, maintains I (modify (put_executor e)).
Hypothesis I_put_sourceCode : ∀ x, maintains I (modify (put_sourceCode x)).
Hypothesis I_put_imageLoader : ∀ x, maintains I (modify (put_imageLoader x)).
Hypothesis I_put_uiManager : ∀ x, maintains I (modify (put_uiManager x)).
Hypothesis I_put_ready : ∀ b, maintains I (modify (put_ready b)).
Hypothesis I_put_config :
  (∀ x, maintains I (modify (put_bundleUrl x)))
  ∧ (∀ x, maintains I (modify (put_pluginsPath x)))
  ∧ (∀ x, maintains I (modify (put_executorName x)))
  ∧ (∀ x, maintains I (modify (put_nam x))).
Hypothesis okTimer_execute : okTimer TkExecuteApplicationScript.
Hypothesis okTimer_flushedQueue : okTimer TkFlushedQueue.
Hypothesis okCall_process : ∀ e name args, okCall (mkCall e name args CbProcessResult).
Hypothesis okCall_drain : ∀ e, okCall (mkCall e "flushedQueue" [] CbProcessResultThenReady).

Lemma maintains_processResult env doc : maintains I (processResult env doc).
Proof using I_emit I_modules_at.
  unfold processResult, processEntry, qCritical. maintain.
Qed.

Lemma maintains_setupExecutor env : maintains I (setupExecutor env).
Proof using I_emit I_new I_put_executor.
  unfold setupExecutor, qWarning. maintain.
Qed.
#[local] Hint Resolve maintains_setupExecutor : maintain.

Lemma maintains_loadPlugins env dir files :
  ∀ acc, maintains I (loadPlugins env dir files acc).
Proof using I_emit.
  induction files as [|f files IH]; intros acc; simpl; unfold qWarning; maintain.
Qed.
#[local] Hint Resolve maintains_loadPlugins : maintain.

Lemma maintains_initModules env : maintains I (initModules env).
Proof using I_emit I_new I_newModuleData I_put_modules I_put_sourceCode
            I_put_imageLoader I_put_uiManager.
  unfold initModules, pluginModules, registerModule, qWarning.
  maintain.
Qed.
#[local] Hint Resolve maintains_initModules : maintain.

Lemma maintains_moduleConfig mds : ∀ cfg, maintains I (moduleConfig mds cfg).
Proof using Type.
  induction mds as [|[md|] mds IH]; intros cfg; simpl; maintain.
Qed.
#[local] Hint Resolve maintains_moduleConfig : maintain.

Lemma maintains_injectModules : maintains I injectModules.
Proof using I_emit.
  unfold injectModules. maintain.
Qed.
#[local] Hint Resolve maintains_injectModules : maintain.

Lemma maintains_loadSource : maintains I loadSource.
Proof using I_emit.
  unfold loadSource, qCritical. maintain.
Qed.
#[local] Hint Resolve maintains_loadSource : maintain.

Lemma maintains_init env : maintains I (init env).
Proof using I_emit I_new I_newModuleData I_put_modules I_put_sourceCode
            I_put_imageLoader I_put_uiManager I_put_executor.
  unfold init. maintain.
Qed.

Lemma maintains_setReady b : maintains I (setReady b).
Proof using I_emit I_put_ready.
  unfold setReady. maintain.
Qed.
#[local] Hint Resolve maintains_setReady : maintain.

(** [reload] after its first statement, [setReady(false)]. *)
Lemma maintains_reload_rest env :
  maintains I (e ← deref executor;
               emit (EvDeleteLater e);;
               setupExecutor env;;
               mds ← get modules;
               for_each (QMap_values mds) deleteModuleData;;
               modify (put_modules ∅);;
               initModules env;;
               injectModules;;
               loadSource).
Proof using I_emit I_new I_newModuleData I_put_modules I_put_sourceCode
            I_put_imageLoader I_put_uiManager I_put_executor.
  unfold deleteModuleData. maintain.
Qed.

Lemma maintains_reload env : maintains I (reload env).
Proof using I_emit I_new I_newModuleData I_put_modules I_put_sourceCode
            I_put_imageLoader I_put_uiManager I_put_executor I_put_ready.
  unfold reload, deleteModuleData. maintain.
Qed.

Lemma maintains_executeJSCall name args cb :
  (∀ e, okCall (mkCall e name args cb)) → maintains I (executeJSCall name args cb).
Proof using I_emit I_push_call.
  intros Hok. unfold executeJSCall. maintain.
Qed.

Lemma maintains_runTimer t : maintains I (runTimer t).
Proof using I_emit I_push_call okCall_drain.
  destruct t; simpl; [maintain |]. by apply maintains_executeJSCall.
Qed.

(** Every step other than [reload] and the answer to a pending call. *)
Lemma maintains_plain_step env st :
  st ≠ CallReload → (∀ i doc, st ≠ ExecutorReplies i doc) →
  maintains I (step env st).
Proof using I_emit I_new I_newModuleData I_put_modules I_put_sourceCode
            I_put_imageLoader I_put_uiManager I_put_executor I_push_timer
            I_take_timer I_push_call I_put_config okTimer_execute
            okTimer_flushedQueue okCall_process okCall_drain.
  destruct I_put_config as (Hb & Hp & He & Hn).
  intros Hr He'. destruct st; simpl; try done.
  - apply maintains_init.
  - by apply maintains_executeJSCall.
  - by apply maintains_executeJSCall.
  - unfold setBundleUrl. maintain.
  - unfold setPluginsPath. maintain.
  - unfold setExecutorName. maintain.
  - unfold setNetworkAccessManager. maintain.
  - intros s HI. apply maintains_repeatM; [| done].
    unfold applicationScriptDone. maintain.
  - unfold sourcesFinished. maintain.
  - unfold sourcesLoadFailed. maintain.
  - maintain. apply maintains_runTimer.
  - by specialize (He' i doc).
Qed.

(** The steps among them that queue neither a drain timer nor a drain
    call. *)
Lemma maintains_quiet_step env st :
  st ≠ CallReload → (∀ i doc, st ≠ ExecutorReplies i doc) →
  (∀ e, st ≠ SigApplicationScriptDone e) → (∀ i, st ≠ TimerFires i) →
  maintains I (step env st).
Proof using I_emit I_new I_newModuleData I_put_modules I_put_sourceCode
            I_put_imageLoader I_put_uiManager I_put_executor I_push_timer
            I_push_call I_put_config okTimer_execute okCall_process.
  destruct I_put_config as (Hb & Hp & He & Hn).
  intros Hr He' Hs Ht. destruct st; simpl; try done.
  - apply maintains_init.
  - by apply maintains_executeJSCall.
  - by apply maintains_executeJSCall.
  - unfold setBundleUrl. maintain.
  - unfold setPluginsPath. maintain.
  - unfold setExecutorName. maintain.
  - unfold setNetworkAccessManager. maintain.
  - by specialize (Hs e).
  - unfold sourcesFinished. maintain.
  - unfold sourcesLoadFailed. maintain.
  - by specialize (Ht i).
  - by specialize (He' i doc).
Qed.

(** The answer to a call that was made with the plain callback. *)
Lemma maintains_runCallback_process env doc :
  maintains I (runCallback env CbProcessResult doc).
Proof using I_emit I_modules_at.
  apply maintains_processResult.
Qed.
End Maintained.

(** ** Readiness *)

Ltac primitive :=
  first
    [ by (intros; intros ? ?; simpl)
    | by (intros k s H; unfold modules_at; destruct (_ !! _); simpl) ].

Lemma processResult_keeps_ready env doc b :
  maintains (readyIs b) (processResult env doc).
Proof. apply maintains_processResult; primitive. Qed.

Lemma plain_step_keeps_ready env st b :
  st ≠ CallReload → (∀ i doc, st ≠ ExecutorReplies i doc) →
  maintains (readyIs b) (step env st).
Proof.
  apply maintains_plain_step with (okTimer := fun _ => True) (okCall := fun _ => True);
    try primitive; try done.
  repeat split; primitive.
Qed.

Lemma init_keeps_ready env b : maintains (readyIs b) (init env).
Proof. apply maintains_init; primitive. Qed.

Lemma reload_not_ready env s : ready (d (final (reload env s))) = false.
Proof.
  unfold reload. unfold mbind at 1. unfold M_bind, bind.
  assert (Hs : ∃ s1, setReady false s = Done tt s1 ∧ readyIs false s1).
  { unfold setReady, readyIs. unfold_monad.
    destruct (ready (d s)) eqn:E; simpl; eexists; (split; [reflexivity |]); done. }
  destruct Hs as (s1 & -> & H1).
  revert s1 H1. apply maintains_reload_rest with (I := readyIs false); primitive.
Qed.

Lemma step_reply env i doc s c :
  calls s !! i = Some c →
  step env (ExecutorReplies i doc) s = runCallback env (call_callback c) doc (answered i s).
Proof.
  intros H. simpl. unfold take_call. unfold_monad. by rewrite H.
Qed.

Lemma step_reply_none env i doc s :
  calls s !! i = None →
  step env (ExecutorReplies i doc) s = Done tt (answered i s).
Proof.
  intros H. simpl. unfold take_call. unfold_monad. by rewrite H.
Qed.

Lemma setReady_true_not_ready s :
  ready (d s) = false → setReady true s = Done tt (madeReady s).
Proof. intros H. unfold setReady. unfold_monad. by rewrite H. Qed.

Lemma setReady_true_ready s :
  ready (d s) = true → setReady true s = Done tt s.
Proof. intros H. unfold setReady. unfold_monad. by rewrite H. Qed.

(** The only step that can turn [ready] from false to true is the answer to
    a call that was made with the callback of [applicationScriptDone]; in
    that step the batch is processed first, to the end, and [ready] is set
    afterwards. *)
Lemma step_becomes_ready env st s :
  ready (d s) = false →
  ready (d (final (step env st s))) = true →
  ∃ i doc c s1,
    st = ExecutorReplies i doc
    ∧ calls s !! i = Some c
    ∧ call_callback c = CbProcessResultThenReady
    ∧ processResult env doc (answered i s) = Done tt s1
    ∧ ready (d s1) = false
    ∧ step env st s = Done tt (madeReady s1).
Proof.
  intros Hf Ht.
  assert (Hplain : st ≠ CallReload → (∀ i doc, st ≠ ExecutorReplies i doc) → False).
  { intros H1 H2. pose proof (plain_step_keeps_ready env st false H1 H2 s Hf) as H.
    unfold readyIs in H. congruence. }
  destruct st; try (exfalso; apply Hplain; [done | intros; done]).
  - change (step env CallReload s) with (reload env s) in Ht.
    rewrite reload_not_ready in Ht. done.
  - destruct (calls s !! i) as [c|] eqn:Hc.
    + rewrite (step_reply _ _ _ _ c Hc) in Ht |- *.
      pose proof (processResult_keeps_ready env doc false (answered i s) Hf) as Hp.
      destruct (call_callback c) eqn:Hcb; simpl in Ht |- *.
      * unfold readyIs in Hp. congruence.
      * unfold mbind, M_bind, bind in Ht |- *.
        destruct (processResult env doc (answered i s)) as [[] s1 | f s1] eqn:Hpr;
          simpl in Hp; unfold readyIs in Hp.
        -- exists i, doc, c, s1. rewrite setReady_true_not_ready by done.
           repeat split; done.
        -- simpl in Ht. congruence.
    + rewrite step_reply_none in Ht by done. simpl in Ht. congruence.
Qed.

(** Without [reload], a bridge that is ready stays ready. *)
Lemma step_stays_ready env st :
  st ≠ CallReload → maintains (readyIs true) (step env st).
Proof.
  intros Hr s Ht.
  destruct st; try (apply plain_step_keeps_ready; done).
  destruct (calls s !! i) as [c|] eqn:Hc.
  - rewrite (step_reply _ _ _ _ c Hc).
    pose proof (processResult_keeps_ready env doc true (answered i s) Ht) as Hp.
    destruct (call_callback c); simpl; [done |].
    unfold mbind, M_bind, bind.
    destruct (processResult env doc (answered i s)) as [[] s1 | f s1];
      simpl in Hp; [| done].
    by rewrite setReady_true_ready.
  - by rewrite step_reply_none.
Qed.

Lemma run_cons env st rest s :
  run env (st :: rest) s
  = match step env st s with
    | Done _ s' => run env rest s'
    | Crash f s' => Crash f s'
    end.
Proof. reflexivity. Qed.

Lemma run_app env pre : ∀ post s s1,
  run env pre s = Done tt s1 → run env (pre ++ post) s = run env post s1.
Proof.
  induction pre as [|st pre IH]; intros post s s1 H.
  - injection H as ->. done.
  - simpl app. rewrite run_cons in *.
    destruct (step env st s) as [[] s' | f s']; [by apply IH | done].
Qed.

Lemma noReload_cons st rest :
  noReload (st :: rest) = true → st ≠ CallReload ∧ noReload rest = true.
Proof.
  unfold noReload. simpl. intros H. apply andb_true_iff in H as [H1 H2].
  split; [| done]. intros ->. done.
Qed.

Lemma precedes_app a b l evs : precedes a b l → precedes a b (l ++ evs).
Proof.
  intros (pre & post & -> & H). exists pre, (post ++ evs).
  by rewrite <- app_assoc.
Qed.

(** From [s] to [s'] the trace has grown, and every drain timer and drain
    call of [s'] was there in [s] or is accounted for in the trace. *)
Lemma causal_step s s' evs :
  causal s →
  trace s' = trace s ++ evs →
  (TkFlushedQueue ∈ timers s' →
   TkFlushedQueue ∈ timers s ∨ EvSingleShot 0 TkFlushedQueue ∈ trace s') →
  (∀ c, c ∈ calls s' → c ∈ calls s ∨ drainCall s' c) →
  causal s'.
Proof.
  intros [Ht Hc] Htr Htimers Hcalls. split.
  - intros H. destruct (Htimers H) as [H' | H']; [| done].
    rewrite Htr. apply elem_of_app. left. by apply Ht.
  - apply Forall_forall. intros c Hin.
    destruct (Hcalls c Hin) as [Hold | Hnew]; [| done].
    intros Hcb. destruct (proj1 (Forall_forall _ _) Hc c Hold Hcb) as [Heq Hp].
    split; [done |]. rewrite Htr. by apply precedes_app.
Qed.

Ltac causal_primitive :=
  solve [ intros; intros ? ?;
          eapply (causal_step _ _ []);
          [ eassumption | simpl; by rewrite app_nil_r
          | simpl; by auto | simpl; by auto ] ].

Lemma emit_maintains_causal ev : maintains causal (emit ev).
Proof.
  intros s H. eapply (causal_step s _ [ev]); [done | done | simpl; auto | simpl; auto].
Qed.

Lemma take_call_maintains_causal i : maintains causal (take_call i).
Proof.
  intros s H. eapply (causal_step s _ []); [done | simpl; by rewrite app_nil_r | simpl; auto |].
  simpl. intros c Hc. left. by eapply list_elem_of_delete_inv.
Qed.

Lemma modules_at_maintains_causal k : maintains causal (modules_at k).
Proof.
  intros s H. unfold modules_at. destruct (_ !! _); [done |].
  eapply (causal_step s _ []); [done | simpl; by rewrite app_nil_r | simpl; auto | simpl; auto].
Qed.

Lemma applicationScriptDone_maintains_causal : maintains causal applicationScriptDone.
Proof.
  intros s H.
  eapply (causal_step s _ [EvSingleShot 0 TkFlushedQueue]); [done | done | |].
  - intros _. right. simpl. apply elem_of_app. right. by apply list_elem_of_singleton.
  - simpl. auto.
Qed.

Lemma TimerFires_maintains_causal env i : maintains causal (step env (TimerFires i)).
Proof.
  intros s H. simpl. unfold take_timer. unfold mbind, M_bind, bind.
  assert (Hdel : ∀ t, t ∈ delete i (timers s) → t ∈ timers s).
  { intros t Ht. by eapply list_elem_of_delete_inv. }
  destruct (timers s !! i) as [[|]|] eqn:Hi.
  - pose proof emit_maintains_causal. simpl.
    assert (Hm : maintains causal
                   (e ← deref executor; src ← deref sourceCode; url ← get bundleUrl;
                    emit (EvExecuteApplicationScript e src url))) by maintain.
    apply Hm.
    eapply (causal_step s _ []); [done | simpl; by rewrite app_nil_r | simpl; auto | simpl; auto].
  - simpl. unfold executeJSCall, push_call. unfold_monad. simpl.
    destruct (executor (d s)) as [e|].
    + eapply (causal_step s _
                [EvExecuteJSCall e "flushedQueue" [] CbProcessResultThenReady]);
        [done | done | simpl; auto |].
      simpl. intros c Hc. apply elem_of_app in Hc as [Hc | Hc]; [by left | right].
      apply list_elem_of_singleton in Hc as ->. intros _. split; [done |].
      exists (trace s), []. split; [done |].
      apply (proj1 H). by eapply list_elem_of_lookup_2.
    + simpl.
      eapply (causal_step s _ []); [done | simpl; by rewrite app_nil_r | simpl; auto | simpl; auto].
  - simpl.
    eapply (causal_step s _ []); [done | simpl; by rewrite app_nil_r | simpl; auto | simpl; auto].
Qed.

Lemma step_maintains_causal env st : maintains causal (step env st).
Proof.
  pose proof emit_maintains_causal as Hemit.
  pose proof modules_at_maintains_causal as Hmod.
  pose proof take_call_maintains_causal as Htake.
  assert (Hready : ∀ b, maintains causal (modify (put_ready b))) by causal_primitive.
  assert (Hquiet : ∀ st, st ≠ CallReload → (∀ i doc, st ≠ ExecutorReplies i doc) →
                         (∀ e, st ≠ SigApplicationScriptDone e) →
                         (∀ i, st ≠ TimerFires i) →
                         maintains causal (step env st)).
  { intros st' H1 H2 H3 H4.
    apply maintains_quiet_step
      with (okTimer := fun t => t ≠ TkFlushedQueue)
           (okCall := fun c => call_callback c ≠ CbProcessResultThenReady);
      try done; try causal_primitive.
    - intros t Ht s H. eapply (causal_step s _ []);
        [done | simpl; by rewrite app_nil_r | | simpl; auto].
      simpl. intros Hin. left. apply elem_of_app in Hin as [Hin | Hin]; [done |].
      apply list_elem_of_singleton in Hin. congruence.
    - intros c Hc s H. eapply (causal_step s _ []);
        [done | simpl; by rewrite app_nil_r | simpl; auto |].
      simpl. intros c' Hin. apply elem_of_app in Hin as [Hin | Hin]; [by left | right].
      apply list_elem_of_singleton in Hin as ->. intros Hcb. done.
    - split; [| split; [| split]]; causal_primitive. }
  destruct st; try (apply Hquiet; done).
  - apply maintains_reload; try done; causal_primitive.
  - intros s H. simpl. apply maintains_repeatM; [| done].
    apply applicationScriptDone_maintains_causal.
  - apply TimerFires_maintains_causal.
  - simpl. apply maintains_bind; [done |]. intros [c|]; [| apply maintains_ret].
    destruct (call_callback c); simpl.
    + by apply maintains_processResult.
    + apply maintains_bind; [by apply maintains_processResult |].
      intros _. by apply maintains_setReady.
Qed.

Lemma run_maintains_causal env steps : maintains causal (run env steps).
Proof. apply maintains_for_each. apply step_maintains_causal. Qed.

Lemma run_stays_ready env steps : ∀ s,
  ready (d s) = true → noReload steps = true →
  ready (d (final (run env steps s))) = true ∧ transitions env steps s = 0%nat.
Proof.
  induction steps as [|st rest IH]; intros s Ht Hn; [done |].
  apply noReload_cons in Hn as [Hst Hn].
  pose proof (step_stays_ready env st Hst s Ht) as Hs. unfold readyIs in Hs.
  rewrite run_cons. simpl transitions. unfold becomesReady. rewrite Ht. simpl.
  destruct (step env st s) as [[] s' | f s']; simpl in Hs; [| done].
  by apply IH.
Qed.

(** One cycle: a run without [reload] from a bridge that is not ready. *)
Lemma cycle_spec env steps : ∀ s,
  causal s → ready (d s) = false → noReload steps = true →
  (transitions env steps s ≤ 1)%nat
  ∧ (ready (d (final (run env steps s))) = true ↔ transitions env steps s = 1%nat)
  ∧ (ready (d (final (run env steps s))) = true →
     ∃ pre i doc post s1 e s2,
       steps = pre ++ ExecutorReplies i doc :: post
       ∧ run env pre s = Done tt s1
       ∧ ready (d s1) = false
       ∧ calls s1 !! i = Some (mkCall e "flushedQueue" [] CbProcessResultThenReady)
       ∧ precedes (EvSingleShot 0 TkFlushedQueue)
                  (EvExecuteJSCall e "flushedQueue" [] CbProcessResultThenReady)
                  (trace s1)
       ∧ processResult env doc (answered i s1) = Done tt s2
       ∧ ready (d s2) = false
       ∧ step env (ExecutorReplies i doc) s1 = Done tt (madeReady s2)).
Proof.
  induction steps as [|st rest IH]; intros s Hd Hf Hn.
  - simpl. rewrite Hf. repeat split; try done; lia.
  - apply noReload_cons in Hn as [Hst Hn].
    pose proof (step_maintains_causal env st s Hd) as Hd'.
    pose proof (step_becomes_ready env st s Hf) as Hb.
    rewrite run_cons. simpl transitions. unfold becomesReady. rewrite Hf. simpl negb.
    destruct (step env st s) as [[] s' | f s'] eqn:Hstep; simpl in Hd', Hb.
    + destruct (ready (d s')) eqn:Hr'; simpl.
      * destruct (run_stays_ready env rest s' Hr' Hn) as [Hfin ->].
        split; [lia |]. split; [done |]. intros _.
        destruct Hb as (i & doc & c & s2 & -> & Hc & Hcb & Hp & Hr2 & Heq);
          [done |].
        exists [], i, doc, rest, s, (call_executor c), s2.
        pose proof (proj1 (Forall_lookup _ _) (proj2 Hd) i c Hc Hcb) as [Hform Hprec].
        split; [done |]. split; [done |]. split; [done |].
        split; [by rewrite Hc, Hform |]. split; [done |].
        split; [done |]. split; [done |].
        change (step env (ExecutorReplies i doc) s = Done tt (madeReady s2)).
        congruence.
      * destruct (IH s' Hd' Hr' Hn) as (H1 & H2 & H3).
        split; [done |]. split; [done |]. intros Hfin.
        destruct (H3 Hfin) as (pre & i & doc & post & s1 & e & s2 & -> & Hrun & Hrest).
        exists (st :: pre), i, doc, post, s1, e, s2.
        split; [done |]. split; [| done].
        rewrite run_cons, Hstep. done.
    + simpl. destruct (ready (d s')) eqn:Hr'.
      * destruct Hb as (? & ? & ? & ? & _ & _ & _ & _ & _ & [=]); done.
      * repeat split; try done; lia.
Qed.

Lemma applicationScriptDone_queues_timer s :
  applicationScriptDone s
  = Done tt {| d := d s; nextPtr := nextPtr s; moduleDataCount := moduleDataCount s;
               timers := timers s ++ [TkFlushedQueue]; calls := calls s;
               trace := trace s ++ [EvSingleShot 0 TkFlushedQueue] |}.
Proof. reflexivity. Qed.

Lemma flushedQueue_timer_calls_executor s e :
  executor (d s) = Some e →
  runTimer TkFlushedQueue s
  = Done tt {| d := d s; nextPtr := nextPtr s; moduleDataCount := moduleDataCount s;
               timers := timers s;
               calls := calls s ++ [mkCall e "flushedQueue" [] CbProcessResultThenReady];
               trace := trace s ++ [EvExecuteJSCall e "flushedQueue" []
                                                    CbProcessResultThenReady] |}.
Proof.
  intros H. simpl. unfold executeJSCall, push_call. unfold_monad. by rewrite H.
Qed.



(** ** The drain callback and documents that are not batches *)

(** C10. When the executor answers the call made by the timer of
    [applicationScriptDone] with a document that is not an array (null, or
    a JSON object), nothing is dispatched and the bridge is ready
    afterwards all the same. *)
Theorem drain_reply_sets_ready (env : Env) (s : Bridge) i c doc :
  calls s !! i = Some c →
  call_callback c = CbProcessResultThenReady →
  isArray doc = false →
  ∃ s', step env (ExecutorReplies i doc) s = Done tt s'
        ∧ ready (d s') = true
        ∧ Forall (fun ev => is_invoke ev = false) (newEvents s s').
Proof.
  intros Hc Hcb Harr. rewrite (step_reply env i doc s c Hc), Hcb.
  unfold newEvents.
  destruct doc as [| a | o]; [| done |]; simpl; unfold setReady; unfold_monad;
    simpl; destruct (ready (d s)) eqn:Hr; simpl;
    (eexists; split; [reflexivity |]; split; [done |]); simpl;
    rewrite <- ?app_assoc, ?drop_app_length, ?drop_all; repeat constructor.
Qed.

Lemma drain_reply_sets_ready_witness :
  ∃ s', step sampleEnv (ExecutorReplies 0 (DocObject []))
          (final (run sampleEnv [CallInit; SigApplicationScriptDone 1; TimerFires 0]
                      bridgeWithNam))
        = Done tt s'
        ∧ ready (d s') = true
        ∧ Forall (fun ev => is_invoke ev = false)
            (newEvents (final (run sampleEnv
                                 [CallInit; SigApplicationScriptDone 1; TimerFires 0]
                                 bridgeWithNam)) s').
Proof.
  apply (drain_reply_sets_ready sampleEnv
           (final (run sampleEnv [CallInit; SigApplicationScriptDone 1; TimerFires 0]
                       bridgeWithNam))
           0%nat (mkCall 1%nat "flushedQueue" [] CbProcessResultThenReady)
           (DocObject [])).
  - vm_compute. reflexivity.
  - reflexivity.
  - reflexivity.
Defined.

(** ** Calls into the script *)

(** C8. [enqueueJSCall] makes exactly one call on the executor, to
    ["callFunctionReturnFlushedQueue"] with the three arguments module
    name, method name and argument list, and changes nothing else about the
    bridge; whatever document the executor answers that call with is
    handed to [processResult]. *)
Theorem enqueueJSCall_calls_executor (env : Env) (s : Bridge) e module method args :
  executor (d s) = Some e →
  ∃ s', enqueueJSCall module method args s = Done tt s'
        ∧ d s' = d s
        ∧ newEvents s s'
          = [EvExecuteJSCall e "callFunctionReturnFlushedQueue"
               [VString module; VString method; VList args] CbProcessResult]
        ∧ calls s'
          = calls s ++ [mkCall e "callFunctionReturnFlushedQueue"
                          [VString module; VString method; VList args]
                          CbProcessResult]
        ∧ answered (length (calls s)) s' = dispatched (modules (d s)) (newEvents s s') s
        ∧ ∀ doc, step env (ExecutorReplies (length (calls s)) doc) s'
                 = processResult env doc (answered (length (calls s)) s').
Proof.
  intros He.
  pose (c := mkCall e "callFunctionReturnFlushedQueue"
               [VString module; VString method; VList args] CbProcessResult).
  pose (ev := EvExecuteJSCall e "callFunctionReturnFlushedQueue"
                [VString module; VString method; VList args] CbProcessResult).
  exists {| d := d s; nextPtr := nextPtr s; moduleDataCount := moduleDataCount s;
            timers := timers s; calls := calls s ++ [c]; trace := trace s ++ [ev] |}.
  split.
  { unfold enqueueJSCall, executeJSCall, push_call. unfold_monad. by rewrite He. }
  assert (Hnew : ∀ s', trace s' = trace s ++ [ev] → newEvents s s' = [ev]).
  { intros s' H. unfold newEvents. by rewrite H, drop_app_length. }
  rewrite Hnew by done.
  split; [done |]. split; [done |]. split; [done |]. split.
  - unfold answered, dispatched. simpl. rewrite delete_middle, app_nil_r.
    by destruct s as [[] ? ? ? ? ?].
  - intros doc. rewrite (step_reply env _ doc _ c); [done |].
    simpl. by rewrite list_lookup_middle.
Qed.

Lemma enqueueJSCall_calls_executor_witness :
  ∃ s', enqueueJSCall "RCTEventEmitter" "receiveEvent" [VNum 3] bridgeAB = Done tt s'
        ∧ d s' = d bridgeAB
        ∧ newEvents bridgeAB s'
          = [EvExecuteJSCall 1%nat "callFunctionReturnFlushedQueue"
               [VString "RCTEventEmitter"; VString "receiveEvent"; VList [VNum 3]]
               CbProcessResult]
        ∧ calls s'
          = calls bridgeAB ++ [mkCall 1%nat "callFunctionReturnFlushedQueue"
                          [VString "RCTEventEmitter"; VString "receiveEvent";
                           VList [VNum 3]]
                          CbProcessResult]
        ∧ answered (length (calls bridgeAB)) s'
          = dispatched (modules (d bridgeAB)) (newEvents bridgeAB s') bridgeAB
        ∧ ∀ doc, step sampleEnv (ExecutorReplies (length (calls bridgeAB)) doc) s'
                 = processResult sampleEnv doc (answered (length (calls bridgeAB)) s').
Proof.
  apply (enqueueJSCall_calls_executor sampleEnv bridgeAB 1%nat
           "RCTEventEmitter" "receiveEvent" [VNum 3]).
  reflexivity.
Defined.

(** ** Executor setup *)

Lemma setupExecutor_installs (env : Env) (s : Bridge) b :
  QMetaType_type env (executorName (d s) +:+ "*") = MetaObject b →
  setupExecutor env s = Done tt (executorInstalled b s).
Proof.
  intros H. unfold setupExecutor, new. unfold_monad. rewrite H.
  unfold executorInstalled, constructionEvents.
  destruct b; simpl; rewrite <- ?app_assoc; reflexivity.
Qed.

(** On a bridge without executor, an unknown class name leads to the
    default executor. *)
Lemma setupExecutor_unknown_default (env : Env) (s : Bridge) :
  QMetaType_type env (executorName (d s) +:+ "*") = UnknownType →
  executor (d s) = None →
  setupExecutor env s = Done tt (executorInstalled false s).
Proof.
  intros H He. unfold setupExecutor, new. unfold_monad. rewrite H. simpl.
  rewrite He. unfold executorInstalled, constructionEvents. simpl.
  rewrite <- ?app_assoc. reflexivity.
Qed.

(** On a bridge that has an executor, an unknown class name leaves
    [d->executor] as it is: nothing is constructed, nothing is logged, and
    the executor that is there is connected and initialised once more. *)
Lemma setupExecutor_unknown_keeps (env : Env) (s : Bridge) e :
  QMetaType_type env (executorName (d s) +:+ "*") = UnknownType →
  executor (d s) = Some e →
  setupExecutor env s
  = Done tt (emitted [EvConnectApplicationScriptDone e; EvExecutorInit e] s).
Proof.
  intros H He. unfold setupExecutor. unfold_monad. rewrite H. simpl.
  rewrite !He. simpl. unfold emitted. simpl. rewrite <- ?app_assoc. reflexivity.
Qed.

(** C7 fails on the code in [reload].  The bridge below was configured with
    an executor class that is not registered; [init] warned and installed
    the default executor, pointer 1.  [reload] schedules that executor for
    deletion and runs [setupExecutor], which finds no class of that name
    and, [d->executor] still being non-null, neither warns nor constructs
    the default: the bridge goes on with the executor it has just scheduled
    for deletion. *)
Theorem reload_keeps_deleted_executor :
  ∃ s1 s2,
    run sampleEnv [CallSetNetworkAccessManager (Some 0%nat);
                   CallSetExecutorName "NoSuchExecutor"; CallInit] ReactBridge_new
    = Done tt s1
    ∧ reload sampleEnv s1 = Done tt s2
    ∧ QMetaType_type sampleEnv (executorName (d s1) +:+ "*") = UnknownType
    ∧ executor (d s1) = Some 1%nat
    ∧ executor (d s2) = Some 1%nat
    ∧ take 3 (newEvents s1 s2)
      = [EvDeleteLater 1; EvConnectApplicationScriptDone 1; EvExecutorInit 1]
    ∧ existsb is_new_executor (newEvents s1 s2) = false
    ∧ existsb is_warning (newEvents s1 s2) = false.
Proof.
  eexists. eexists.
  split; [vm_compute; reflexivity |].
  split; [vm_compute; reflexivity |].
  repeat split; vm_compute; reflexivity.
Qed.

(** ** Rebuilding on reload *)

Lemma emitted_nil s : emitted [] s = s.
Proof. destruct s. unfold emitted. simpl. by rewrite app_nil_r. Qed.

Lemma emitted_emitted evs1 evs2 s :
  emitted evs2 (emitted evs1 s) = emitted (evs1 ++ evs2) s.
Proof. unfold emitted. simpl. by rewrite app_assoc. Qed.

Lemma setReady_false s : setReady false s = Done tt (notReady s).
Proof.
  unfold setReady, notReady. unfold_monad. by destruct (ready (d s)).
Qed.

Lemma for_each_deleteModuleData mds : ∀ s,
  for_each mds deleteModuleData s = Done tt (emitted (deleteEvents mds) s).
Proof.
  induction mds as [|[m|] mds IH]; intros s; simpl.
  - by rewrite emitted_nil.
  - unfold_monad. rewrite IH. unfold emitted. simpl. by rewrite <- app_assoc.
  - unfold_monad. by rewrite IH.
Qed.

Lemma loadPlugins_spec env dir files : ∀ acc s,
  loadPlugins env dir files acc s
  = Done (pluginObjects env dir files acc) (emitted (pluginWarnings env dir files) s).
Proof.
  induction files as [|f files IH]; intros acc s; simpl.
  - by rewrite emitted_nil.
  - destruct (QPluginLoader_instance env dir f); unfold_monad; rewrite IH;
      unfold emitted; simpl; by rewrite <- ?app_assoc.
Qed.

Lemma for_each_registerModule env objs : ∀ s,
  for_each objs (registerModule env) s
  = Done tt {| d := put_modules (registryOf env objs (moduleDataCount s) (modules (d s)))
                                (d s);
               nextPtr := nextPtr s;
               moduleDataCount := registerCount env objs (moduleDataCount s);
               timers := timers s; calls := calls s;
               trace := trace s ++ registerEvents env objs |}.
Proof.
  induction objs as [|o objs IH]; intros s; simpl.
  - destruct s as [[] ? ? ? ? ?]. simpl. by rewrite app_nil_r.
  - unfold registerModule, newModuleData. unfold_monad.
    destruct (qobject_cast_ReactModuleInterface env o); rewrite IH; simpl;
      by rewrite <- app_assoc.
Qed.

Lemma initModules_spec env s :
  initModules env s = Done tt (modulesInitialised env s).
Proof.
  unfold initModules, pluginModules, new. unfold_monad.
  rewrite loadPlugins_spec. cbv beta iota. rewrite for_each_registerModule.
  unfold modulesInitialised, initModulesEvents, candidateModules, emitted.
  cbn -[internalModules registryOf registerCount registerEvents pluginObjects
        pluginWarnings app].
  by rewrite <- !app_assoc.
Qed.

Lemma bind_Done {A B} (m : M A) (k : A → M B) s a s' :
  m s = Done a s' → (m ≫= k) s = k a s'.
Proof. intros H. unfold mbind, M_bind, bind. by rewrite H. Qed.

Lemma deref_Some (f : ReactBridgePrivate → option ptr) s p :
  f (d s) = Some p → deref f s = Done p s.
Proof. intros H. unfold deref. by rewrite H. Qed.

Lemma registryOf_noNullModule env objs : ∀ n reg,
  noNullModule reg → noNullModule (registryOf env objs n reg).
Proof.
  induction objs as [|o objs IH]; intros n reg Hreg; simpl; [done |].
  destruct (qobject_cast_ReactModuleInterface env o); apply IH; [| done].
  intros k v. destruct (decide (md_id (ReactModuleData_new env n o) = k)) as [<- | Hne].
  - rewrite lookup_insert_eq. intros [= <-]. eauto.
  - rewrite lookup_insert_ne by done. apply Hreg.
Qed.

Lemma QMap_values_elem_of {V} (m : gmap Z V) (v : V) :
  v ∈ QMap_values m → ∃ k, m !! k = Some v.
Proof.
  unfold QMap_values. intros H.
  apply list_elem_of_fmap in H as ([k v'] & -> & H).
  rewrite merge_sort_Permutation in H.
  apply elem_of_map_to_list in H. eauto.
Qed.

Lemma QMap_values_noNullModule reg :
  noNullModule reg → Forall is_Some (QMap_values reg).
Proof.
  intros H. apply Forall_forall. intros v Hv.
  apply QMap_values_elem_of in Hv as [k Hk]. eauto.
Qed.

Lemma moduleConfig_spec mds : ∀ cfg s,
  Forall is_Some mds → moduleConfig mds cfg s = Done (configOf mds cfg) s.
Proof.
  induction mds as [|[md|] mds IH]; intros cfg s H; simpl; [done | |].
  - apply Forall_cons in H as [_ H]. by apply IH.
  - apply Forall_cons in H as [[? [=]] _].
Qed.

Lemma injectModules_spec s e :
  executor (d s) = Some e →
  noNullModule (modules (d s)) →
  injectModules s
  = Done tt (emitted [EvInjectJson e "__fbBatchedBridgeConfig"
                        (VMap [("remoteModuleConfig",
                                VMap (configOf (QMap_values (modules (d s))) []))])] s).
Proof.
  intros He Hreg. unfold injectModules. unfold_monad.
  rewrite moduleConfig_spec by by apply QMap_values_noNullModule.
  by rewrite He.
Qed.

Lemma loadSource_spec s n src :
  nam (d s) = Some n → sourceCode (d s) = Some src →
  loadSource s = Done tt (emitted [EvLoadSource src n] s).
Proof. intros Hn Hs. unfold loadSource. unfold_monad. by rewrite Hn, Hs. Qed.

(** Without a network access manager nothing is loaded. *)
Lemma loadSource_no_nam s :
  nam (d s) = None →
  loadSource s
  = Done tt (emitted [EvCritical "No QNetworkAccessManager for loading sources"] s).
Proof. intros Hn. unfold loadSource. unfold_monad. by rewrite Hn. Qed.




(** * Further properties *)

(** ** Documents of any shape *)

Lemma for_each_app {A} (l1 l2 : list A) (body : A → M unit) s :
  for_each (l1 ++ l2) body s
  = match for_each l1 body s with
    | Done _ s' => for_each l2 body s'
    | Crash f s' => Crash f s'
    end.
Proof.
  revert s. induction l1 as [|x l1 IH]; intros s; simpl; [done |].
  unfold mbind, M_bind, bind. destruct (body x s) as [[] s1 | f s1]; [apply IH | done].
Qed.

Lemma for_each_ext {A} (l : list A) (body body' : A → M unit) :
  (∀ x, x ∈ l → body x = body' x) → for_each l body = for_each l body'.
Proof.
  induction l as [|x l IH]; intros H; simpl; [done |].
  rewrite (H x) by apply list_elem_of_here.
  rewrite IH; [done |]. intros y Hy. apply H. by apply list_elem_of_further.
Qed.

Lemma processEntry_ext (env : Env) mids mids' meths meths' pars pars' i :
  mids !! i = mids' !! i → meths !! i = meths' !! i → pars !! i = pars' !! i →
  processEntry env mids meths pars i = processEntry env mids' meths' pars' i.
Proof.
  intros H1 H2 H3. unfold processEntry, QList_at. by rewrite H1, H2, H3.
Qed.

(** The first three elements of the array are taken before anything else:
    an array with fewer elements, the empty array included, is a fault. *)
Theorem processResult_short_array (env : Env) (s : Bridge) requests :
  (length requests < 3)%nat →
  processResult env (DocArray requests) s = Crash IndexOutOfRange s.
Proof.
  intros H. destruct requests as [|a [|b [|c r]]]; simpl in H; try lia; reflexivity.
Qed.

Lemma processResult_short_array_witness :
  processResult sampleEnv (DocArray []) bridgeAB = Crash IndexOutOfRange bridgeAB.
Proof. apply processResult_short_array. simpl. lia. Defined.

(** Whatever the document, and whether [processResult] returns or faults,
    the bridge it stops in is the one it started in with events added to the
    trace and null entries added to the registry. *)
Theorem processResult_frame (env : Env) (doc : QJsonDocument) (s : Bridge) :
  ∃ reg evs, final (processResult env doc s) = dispatched reg evs s
             ∧ nullExtension (modules (d s)) reg.
Proof.
  apply (maintains_processResult
           (fun s' => ∃ reg evs, s' = dispatched reg evs s
                                 ∧ nullExtension (modules (d s)) reg)).
  - intros ev s' (reg & evs & -> & H). exists reg, (evs ++ [ev]). split; [| done].
    unfold dispatched. simpl. by rewrite app_assoc.
  - intros k s' (reg & evs & -> & H). unfold modules_at. simpl.
    destruct (reg !! k) as [v|] eqn:E; simpl; [by exists reg, evs |].
    exists (<[k := None]> reg), evs. split; [done |].
    eapply nullExtension_trans; [done |]. by apply nullExtension_insert.
  - exists (modules (d s)), []. split; [by rewrite dispatched_id | apply nullExtension_refl].
Qed.

(** ** Batches whose sequences are too short *)

(** An entry whose module is not found is finished with the report: its
    method index and its parameter list are not looked at. *)
Lemma processEntry_unresolved (env : Env) moduleIDs methodIDs paramArrays i
    moduleID (s : Bridge) :
  moduleIDs !! i = Some moduleID →
  lookupModule (modules (d s)) (toInt env moduleID) = None →
  ∃ reg', processEntry env moduleIDs methodIDs paramArrays i s
          = Done tt (dispatched reg' [EvCritical "Could not find referenced module"] s)
          ∧ nullExtension (modules (d s)) reg'.
Proof.
  intros Hi Hnone. unfold processEntry, lookupModule, modules_at in *. unfold_monad.
  rewrite Hi. simpl.
  destruct (modules (d s) !! toInt env moduleID) as [[md|]|] eqn:Hreg; simpl in *.
  - done.
  - exists (modules (d s)). split; [| apply nullExtension_refl].
    destruct s as [[] ? ? ? ? ?]; reflexivity.
  - exists (<[toInt env moduleID := None]> (modules (d s))).
    split; [reflexivity | by apply nullExtension_insert].
Qed.

Lemma processEntries_unresolved (env : Env) reg methodIDs paramArrays rm :
  ∀ pm (s : Bridge),
    Forall (fun id => lookupModule reg (toInt env id) = None) rm →
    nullExtension reg (modules (d s)) →
    ∃ reg', for_each (seq (length pm) (length rm))
                     (processEntry env (pm ++ rm) methodIDs paramArrays) s
            = Done tt (dispatched reg'
                         (replicate (length rm)
                            (EvCritical "Could not find referenced module")) s)
            ∧ nullExtension reg reg'.
Proof.
  induction rm as [|x rm IH]; intros pm s Hall Hreg.
  - exists (modules (d s)). simpl. rewrite dispatched_id. by split.
  - apply Forall_cons in Hall as [Hx Hall].
    simpl length. simpl seq. simpl for_each.
    destruct (processEntry_unresolved env (pm ++ x :: rm) methodIDs paramArrays
                (length pm) x s) as (reg1 & E1 & X1).
    { by rewrite list_lookup_middle. }
    { by rewrite (nullExtension_lookupModule reg). }
    destruct (IH (pm ++ [x])
                (dispatched reg1 [EvCritical "Could not find referenced module"] s))
      as (reg2 & E2 & X2); [done | |].
    { simpl. eapply nullExtension_trans; eauto. }
    exists reg2. split; [| done].
    unfold mbind, M_bind, bind. rewrite E1.
    rewrite length_app, Nat.add_1_r in E2. rewrite <- !app_assoc in E2. simpl in E2.
    rewrite E2. by rewrite dispatched_dispatched.
Qed.

(** When none of the module IDs of a batch resolves, the other two
    sequences are never indexed: whatever their lengths, even empty, the
    batch ends without a fault in one report per module ID. *)
Theorem processResult_unresolved_any_length (env : Env) (s : Bridge) requests r0 r1 r2 :
  requests !! 0%nat = Some r0 →
  requests !! 1%nat = Some r1 →
  requests !! 2%nat = Some r2 →
  Forall (fun id => lookupModule (modules (d s)) (toInt env id) = None) (toList r0) →
  ∃ reg', processResult env (DocArray requests) s
          = Done tt (dispatched reg'
                       (replicate (length (toList r0))
                          (EvCritical "Could not find referenced module")) s)
          ∧ nullExtension (modules (d s)) reg'.
Proof.
  intros H0 H1 H2 Hall.
  unfold processResult. simpl. unfold_monad.
  unfold FieldRequestModuleIDs, FieldMethodIDs, FieldParams.
  rewrite H0, H1, H2. simpl.
  apply (processEntries_unresolved env (modules (d s)) (toList r1) (toList r2)
           (toList r0) [] s); [done | apply nullExtension_refl].
Qed.

Lemma processResult_unresolved_any_length_witness :
  ∃ reg', processResult sampleEnv
            (DocArray [VList [VNum 7; VNum 8]; VList []; VNum 3]) bridgeAB
          = Done tt (dispatched reg'
                       (replicate 2 (EvCritical "Could not find referenced module"))
                       bridgeAB)
          ∧ nullExtension (modules (d bridgeAB)) reg'.
Proof.
  apply (processResult_unresolved_any_length sampleEnv bridgeAB
           [VList [VNum 7; VNum 8]; VList []; VNum 3]
           (VList [VNum 7; VNum 8]) (VList []) (VNum 3)); try reflexivity.
  apply Forall_cons. split; [vm_compute; reflexivity |].
  apply Forall_cons. split; [vm_compute; reflexivity |].
  apply Forall_nil_2.
Defined.

(** The entries before index [k], when all three sequences reach that
    far. *)
Lemma processEntries_prefix (env : Env) (s : Bridge) mids meths pars k :
  (k ≤ length mids)%nat → (k ≤ length meths)%nat → (k ≤ length pars)%nat →
  ∃ reg', for_each (seq 0 k) (processEntry env mids meths pars) s
          = Done tt (dispatched reg'
                       (batchEvents env (modules (d s)) (take k mids) (take k meths)
                                    (take k pars)) s)
          ∧ nullExtension (modules (d s)) reg'.
Proof.
  intros Lm Lt Lp.
  rewrite (for_each_ext _ _ (processEntry env (take k mids) (take k meths) (take k pars))).
  - destruct (processEntries_spec env (modules (d s)) (take k mids) (take k meths)
                (take k pars) [] [] [] s) as (reg' & E & X);
      rewrite ?length_take; try lia; try done; [apply nullExtension_refl |].
    exists reg'. split; [| done].
    rewrite length_take in E. by replace (k `min` length mids)%nat with k in E by lia.
  - intros i Hi. apply elem_of_seq in Hi.
    apply processEntry_ext; by rewrite lookup_take_lt by lia.
Qed.

(** A batch with fewer method indices than module IDs.  The entries that
    have a method index are dispatched as usual; if the module of the first
    entry without one resolves, reading its method index is a fault, and the
    entries after it are not reached. *)
Theorem processResult_missing_method_index (env : Env) (s : Bridge)
    moduleIDs methodIDs paramArrays moduleID md :
  (length methodIDs ≤ length paramArrays)%nat →
  moduleIDs !! length methodIDs = Some moduleID →
  lookupModule (modules (d s)) (toInt env moduleID) = Some md →
  ∃ reg', processResult env
            (DocArray [VList moduleIDs; VList methodIDs; VList paramArrays]) s
          = Crash IndexOutOfRange
              (dispatched reg'
                 (batchEvents env (modules (d s)) moduleIDs methodIDs paramArrays) s)
          ∧ nullExtension (modules (d s)) reg'.
Proof.
  intros Lp Hk Hmd.
  pose proof (lookup_lt_Some _ _ _ Hk) as Lk.
  unfold processResult. simpl. unfold_monad. simpl.
  replace (length moduleIDs)
    with (length methodIDs + S (length moduleIDs - S (length methodIDs)))%nat by lia.
  rewrite seq_app, for_each_app. simpl seq.
  destruct (processEntries_prefix env s moduleIDs methodIDs paramArrays
              (length methodIDs)) as (reg' & E & X); [lia | lia | lia |].
  rewrite E. exists reg'. split; [| done].
  assert (Hev : batchEvents env (modules (d s)) (take (length methodIDs) moduleIDs)
                  (take (length methodIDs) methodIDs)
                  (take (length methodIDs) paramArrays)
                = batchEvents env (modules (d s)) moduleIDs methodIDs paramArrays).
  { clear. revert moduleIDs paramArrays.
    induction methodIDs as [|y ys IH]; intros [|x xs] [|z zs]; simpl; try done.
    by rewrite IH. }
  rewrite Hev. simpl for_each. unfold mbind, M_bind, bind.
  assert (Hcrash : ∀ s1, lookupModule (modules (d s1)) (toInt env moduleID) = Some md →
                         processEntry env moduleIDs methodIDs paramArrays
                                      (0 + length methodIDs) s1
                         = Crash IndexOutOfRange s1).
  { intros s1 H1. unfold processEntry, lookupModule, modules_at in *. unfold_monad.
    simpl. rewrite Hk. simpl.
    destruct (modules (d s1) !! toInt env moduleID) as [[md'|]|]; simpl in H1; try done.
    by rewrite (lookup_ge_None_2 methodIDs) by lia. }
  rewrite Hcrash; [done |].
  simpl. by rewrite (nullExtension_lookupModule (modules (d s))).
Qed.

(** [A] is asked for a second call, for which the batch has no method
    index: the first call is made, then the bridge faults. *)
Lemma processResult_missing_method_index_witness :
  ∃ reg', processResult sampleEnv
            (DocArray [VList [VNum 0; VNum 0]; VList [VNum 1]; VList [VList []; VList []]])
            bridgeAB
          = Crash IndexOutOfRange
              (dispatched reg'
                 (batchEvents sampleEnv (modules (d bridgeAB)) [VNum 0; VNum 0]
                              [VNum 1] [VList []; VList []]) bridgeAB)
          ∧ nullExtension (modules (d bridgeAB)) reg'.
Proof.
  apply (processResult_missing_method_index sampleEnv bridgeAB
           [VNum 0; VNum 0] [VNum 1] [VList []; VList []] (VNum 0) moduleA).
  - simpl. lia.
  - reflexivity.
  - vm_compute. reflexivity.
Defined.

(** ** Null entries *)

Lemma QMap_values_elem_of_2 {V} (m : gmap Z V) (k : Z) (v : V) :
  m !! k = Some v → v ∈ QMap_values m.
Proof.
  intros H. unfold QMap_values. apply list_elem_of_fmap. exists (k, v).
  split; [done |]. rewrite merge_sort_Permutation. by apply elem_of_map_to_list.
Qed.

Lemma for_each_reaches {A} (I : Bridge → Prop) (body : A → M unit) x l2 :
  (∀ s, I (final (body x s))) → (∀ y, maintains I (body y)) →
  ∀ l1 s s', for_each (l1 ++ x :: l2) body s = Done tt s' → I s'.
Proof.
  intros Hx Hm. induction l1 as [|y l1 IH]; intros s s' E; simpl in E;
    unfold mbind, M_bind, bind in E.
  - specialize (Hx s). destruct (body x s) as [[] s1 | f s1]; [| done].
    pose proof (maintains_for_each I l2 body Hm s1 Hx) as H. by rewrite E in H.
  - destruct (body y s) as [[] s1 | f s1]; [| done]. by eapply IH.
Qed.

(** After its round of the loop, the module ID of an entry is a key of the
    registry, and it stays one. *)
Lemma processEntry_key (env : Env) mids meths pars i moduleID s :
  mids !! i = Some moduleID →
  is_Some (modules (d (final (processEntry env mids meths pars i s)))
             !! toInt env moduleID).
Proof.
  intros Hi. unfold processEntry, modules_at. unfold_monad. rewrite Hi. simpl.
  destruct (modules (d s) !! toInt env moduleID) as [[md|]|] eqn:E; simpl.
  - destruct (meths !! i); simpl; [| by rewrite E].
    destruct (method md _); simpl; [| by rewrite E].
    destruct (pars !! i); simpl; by rewrite E.
  - by rewrite E.
  - by rewrite lookup_insert_eq.
Qed.

Lemma processEntry_keeps_key (env : Env) mids meths pars k i :
  maintains (fun s => is_Some (modules (d s) !! k)) (processEntry env mids meths pars i).
Proof.
  assert (Hemit : ∀ ev, maintains (fun s => is_Some (modules (d s) !! k)) (emit ev))
    by (by intros ev s H).
  assert (Hmod : ∀ k', maintains (fun s => is_Some (modules (d s) !! k)) (modules_at k')).
  { intros k' s H. unfold modules_at. destruct (modules (d s) !! k') eqn:E; [done |].
    simpl. rewrite lookup_insert_ne; [done |]. intros ->. rewrite E in H.
    by destruct H. }
  unfold processEntry, qCritical. maintain.
Qed.

(** A well-formed batch that names a module ID which is not a key of the
    registry makes it one: after the batch the ID is there with a null
    pointer, and the list that [modules()] hands out contains a null
    pointer. *)
Theorem processResult_leaves_null_module (env : Env) (s : Bridge)
    requests r0 r1 r2 i moduleID :
  requests !! 0%nat = Some r0 →
  requests !! 1%nat = Some r1 →
  requests !! 2%nat = Some r2 →
  length (toList r0) = length (toList r1) →
  length (toList r0) = length (toList r2) →
  toList r0 !! i = Some moduleID →
  modules (d s) !! toInt env moduleID = None →
  ∃ s', processResult env (DocArray requests) s = Done tt s'
        ∧ modules (d s') !! toInt env moduleID = Some None
        ∧ None ∈ ReactBridge_modules s'.
Proof.
  intros H0 H1 H2 L1 L2 Hi Hnone.
  destruct (processResult_array env s requests r0 r1 r2) as (reg' & E & X);
    [done | done | done | lia | lia |].
  eexists. split; [exact E |].
  assert (Hkey : modules (d (dispatched reg'
                   (batchEvents env (modules (d s)) (toList r0) (toList r1) (toList r2)) s))
                 !! toInt env moduleID = Some None).
  { assert (Hsome : is_Some (modules (d (dispatched reg'
                      (batchEvents env (modules (d s)) (toList r0) (toList r1)
                                   (toList r2)) s)) !! toInt env moduleID)).
    { revert E. unfold processResult. simpl. unfold_monad.
      unfold FieldRequestModuleIDs, FieldMethodIDs, FieldParams.
      rewrite H0, H1, H2. simpl.
      pose proof (lookup_lt_Some _ _ _ Hi) as Li.
      replace (length (toList r0))
        with (i + S (length (toList r0) - S i))%nat at 1 by lia.
      rewrite seq_app. simpl seq. intros E.
      exact (for_each_reaches
               (fun s => is_Some (modules (d s) !! toInt env moduleID))
               (processEntry env (toList r0) (toList r1) (toList r2)) i _
               (fun s1 => processEntry_key env _ _ _ i moduleID s1 Hi)
               (fun y => processEntry_keeps_key env _ _ _ _ y)
               _ _ _ E). }
    simpl in *. destruct (X (toInt env moduleID)) as [Heq | [_ Hn]]; [| done].
    rewrite Heq, Hnone in Hsome. by destruct Hsome. }
  split; [exact Hkey |].
  unfold ReactBridge_modules. by eapply QMap_values_elem_of_2.
Qed.

Lemma processResult_leaves_null_module_witness :
  ∃ s', processResult sampleEnv
          (DocArray [VList [VNum 0; VNum 7]; VList [VNum 0; VNum 0];
                     VList [VList []; VList []]]) bridgeAB
        = Done tt s'
        ∧ modules (d s') !! toInt sampleEnv (VNum 7) = Some None
        ∧ None ∈ ReactBridge_modules s'.
Proof.
  apply (processResult_leaves_null_module sampleEnv bridgeAB
           [VList [VNum 0; VNum 7]; VList [VNum 0; VNum 0]; VList [VList []; VList []]]
           (VList [VNum 0; VNum 7]) (VList [VNum 0; VNum 0]) (VList [VList []; VList []])
           1%nat (VNum 7));
    [reflexivity | reflexivity | reflexivity | reflexivity | reflexivity
    | reflexivity | vm_compute; reflexivity].
Defined.

(** ** Executor setup on a bridge without executor *)

Lemma setupExecutor_NoMetaObject (env : Env) (s : Bridge) :
  QMetaType_type env (executorName (d s) +:+ "*") = NoMetaObject →
  setupExecutor env s = Crash NullPointer s.
Proof.
  intros H. unfold setupExecutor. unfold_monad. by rewrite H.
Qed.

Lemma setupExecutor_fresh (env : Env) (s : Bridge) :
  executor (d s) = None →
  QMetaType_type env (executorName (d s) +:+ "*") ≠ NoMetaObject →
  ∃ b, setupExecutor env s = Done tt (executorInstalled b s)
       ∧ (b = true ↔ QMetaType_type env (executorName (d s) +:+ "*") = MetaObject true).
Proof.
  intros He Hty.
  destruct (QMetaType_type env (executorName (d s) +:+ "*")) as [| |b] eqn:E.
  - exists false. split; [by apply setupExecutor_unknown_default | done].
  - done.
  - exists b. split; [by apply setupExecutor_installs |].
    split; [by intros -> | by intros [= ->]].
Qed.

(** On a bridge that has no executor, as after construction, the fallback
    of [setupExecutor] works for every class name that does not lead to a
    null meta-object: a new executor is installed, connected and
    initialised, of the configured class if that can be instantiated, and
    otherwise the default one after the warning. *)
Theorem setupExecutor_without_executor (env : Env) (s : Bridge) :
  executor (d s) = None →
  QMetaType_type env (executorName (d s) +:+ "*") ≠ NoMetaObject →
  ∃ b, setupExecutor env s = Done tt (executorInstalled b s)
       ∧ (b = true ↔ QMetaType_type env (executorName (d s) +:+ "*") = MetaObject true).
Proof. exact (setupExecutor_fresh env s). Qed.

Lemma setupExecutor_without_executor_witness :
  ∃ b, setupExecutor sampleEnv (with_d (put_executorName "NoSuchExecutor") ReactBridge_new)
       = Done tt (executorInstalled b
                    (with_d (put_executorName "NoSuchExecutor") ReactBridge_new))
       ∧ (b = true ↔ QMetaType_type sampleEnv ("NoSuchExecutor" +:+ "*") = MetaObject true).
Proof.
  apply (setupExecutor_without_executor sampleEnv
           (with_d (put_executorName "NoSuchExecutor") ReactBridge_new)).
  - reflexivity.
  - vm_compute. discriminate.
Defined.

(** A class name whose type is registered without a meta-object, such as
    ["void"], makes [setupExecutor] call [newInstance] through a null
    pointer: it faults before it has changed or logged anything. *)
Theorem setupExecutor_null_meta_object (env : Env) (s : Bridge) :
  QMetaType_type env (executorName (d s) +:+ "*") = NoMetaObject →
  setupExecutor env s = Crash NullPointer s.
Proof. exact (setupExecutor_NoMetaObject env s). Qed.

Lemma setupExecutor_null_meta_object_witness :
  setupExecutor voidStarEnv (with_d (put_executorName "void") ReactBridge_new)
  = Crash NullPointer (with_d (put_executorName "void") ReactBridge_new).
Proof.
  apply setupExecutor_null_meta_object. vm_compute. reflexivity.
Defined.

Lemma setupExecutor_Done (env : Env) (s s' : Bridge) :
  setupExecutor env s = Done tt s' → is_Some (executor (d s')).
Proof.
  intros E.
  destruct (QMetaType_type env (executorName (d s) +:+ "*")) as [| |b] eqn:Hty.
  - destruct (executor (d s)) as [e|] eqn:He.
    + rewrite (setupExecutor_unknown_keeps env s e) in E by done.
      injection E as <-. simpl. by rewrite He.
    + rewrite setupExecutor_unknown_default in E by done. injection E as <-. by eexists.
  - by rewrite setupExecutor_NoMetaObject in E.
  - rewrite (setupExecutor_installs env s b) in E by done. injection E as <-. by eexists.
Qed.

Lemma setupExecutor_keeps_executor (env : Env) :
  maintains (fun s => is_Some (executor (d s))) (setupExecutor env).
Proof.
  intros s [e He].
  destruct (QMetaType_type env (executorName (d s) +:+ "*")) as [| |b] eqn:Hty.
  - rewrite (setupExecutor_unknown_keeps env s e) by done. simpl. by rewrite He.
  - rewrite setupExecutor_NoMetaObject by done. simpl. by rewrite He.
  - rewrite (setupExecutor_installs env s b) by done. by eexists.
Qed.

(** ** Invariants of the event loop *)

Section Stepwise.
(** An invariant that the primitives respect, except that it may depend on
    the executor, on the registry and on the configuration; for those, the
    member functions that write them are assumed to maintain it. *)
Variable env : Env.
Variable I : Bridge → Prop.

Hypothesis I_emit : ∀ ev, maintains I (emit ev).
Hypothesis I_new : maintains I new.
Hypothesis I_push_timer : ∀ t, maintains I (push_timer t).
Hypothesis I_take_timer : ∀ i, maintains I (take_timer i).
Hypothesis I_push_call : ∀ c, maintains I (push_call c).
Hypothesis I_take_call : ∀ i, maintains I (take_call i).
Hypothesis I_modules_at : ∀ k, maintains I (modules_at k).
Hypothesis I_put_sourceCode : ∀ x, maintains I (modify (put_sourceCode x)).
Hypothesis I_put_imageLoader : ∀ x, maintains I (modify (put_imageLoader x)).
Hypothesis I_put_uiManager : ∀ x, maintains I (modify (put_uiManager x)).
Hypothesis I_put_ready : ∀ b, maintains I (modify (put_ready b)).
Hypothesis I_setupExecutor : maintains I (setupExecutor env).
Hypothesis I_registerModule : ∀ o, maintains I (registerModule env o).
Hypothesis I_clear : maintains I (modify (put_modules ∅)).

Lemma stepwise_init : maintains I (init env).
Proof using I_emit I_new I_put_sourceCode I_put_imageLoader I_put_uiManager
            I_setupExecutor I_registerModule.
  pose proof (maintains_loadPlugins I I_emit env) as Hplug.
  pose proof (maintains_injectModules I I_emit) as Hinj.
  pose proof (maintains_loadSource I I_emit) as Hload.
  unfold init, initModules, pluginModules. maintain.
Qed.

Lemma stepwise_reload : maintains I (reload env).
Proof using I_emit I_new I_put_sourceCode I_put_imageLoader I_put_uiManager
            I_put_ready I_setupExecutor I_registerModule I_clear.
  pose proof (maintains_loadPlugins I I_emit env) as Hplug.
  pose proof (maintains_injectModules I I_emit) as Hinj.
  pose proof (maintains_loadSource I I_emit) as Hload.
  pose proof (maintains_setReady I I_emit I_put_ready) as Hready.
  unfold reload, initModules, pluginModules, deleteModuleData. maintain.
Qed.

(** Every step that is not the call of a configuration setter. *)
Lemma stepwise_other st : isConfigSetter st = false → maintains I (step env st).
Proof using I_emit I_new I_push_timer I_take_timer I_push_call I_take_call
            I_modules_at I_put_sourceCode I_put_imageLoader I_put_uiManager
            I_put_ready I_setupExecutor I_registerModule I_clear.
  pose proof (maintains_setReady I I_emit I_put_ready) as Hready.
  pose proof (maintains_processResult I I_emit I_modules_at env) as Hproc.
  intros Hst. destruct st; simpl in Hst; try done; simpl.
  - apply stepwise_init.
  - apply stepwise_reload.
  - unfold enqueueJSCall, executeJSCall. maintain.
  - unfold invokeAndProcess, executeJSCall. maintain.
  - intros s HI. apply maintains_repeatM; [| done].
    unfold applicationScriptDone. maintain.
  - unfold sourcesFinished. maintain.
  - unfold sourcesLoadFailed. maintain.
  - apply maintains_bind; [done |]. intros [[|]|]; simpl;
      unfold executeJSCall; maintain.
  - apply maintains_bind; [done |]. intros [c|]; [| apply maintains_ret].
    destruct (call_callback c); simpl; maintain.
Qed.

Hypothesis I_setters : ∀ st, isConfigSetter st = true → maintains I (step env st).

Lemma stepwise_step st : maintains I (step env st).
Proof using All.
  destruct (isConfigSetter st) eqn:E; [by apply I_setters | by apply stepwise_other].
Qed.

Lemma stepwise_run steps : maintains I (run env steps).
Proof using All. apply maintains_for_each. apply stepwise_step. Qed.
End Stepwise.

Ltac untouched := by (intros; intros ? ?; simpl).

Lemma setter_maintains (I : Bridge → Prop) (env : Env) st :
  (∀ x, maintains I (modify (put_bundleUrl x))) →
  (∀ x, maintains I (modify (put_pluginsPath x))) →
  (∀ x, maintains I (modify (put_executorName x))) →
  (∀ x, maintains I (modify (put_nam x))) →
  isConfigSetter st = true → maintains I (step env st).
Proof.
  intros Hb Hp He Hn Hst. destruct st; simpl in Hst; try done; simpl.
  - unfold setBundleUrl. maintain.
  - unfold setPluginsPath. maintain.
  - unfold setExecutorName. maintain.
  - unfold setNetworkAccessManager. maintain.
Qed.

Lemma bind_Crash {A B} (m : M A) (k : A → M B) s f s' :
  m s = Crash f s' → (m ≫= k) s = Crash f s'.
Proof. intros H. unfold mbind, M_bind, bind. by rewrite H. Qed.

Lemma run_app_Done env pre : ∀ post s s',
  run env (pre ++ post) s = Done tt s' →
  ∃ s1, run env pre s = Done tt s1 ∧ run env post s1 = Done tt s'.
Proof.
  induction pre as [|st pre IH]; intros post s s' E.
  - exists s. by split.
  - simpl app in E. rewrite run_cons in *.
    destruct (step env st s) as [[] s1 | f s1]; [by apply IH | done].
Qed.

(** *** The executor *)

Lemma step_keeps_executor (env : Env) st :
  maintains (fun s => is_Some (executor (d s))) (step env st).
Proof.
  apply stepwise_step; try untouched.
  - intros k s H. unfold modules_at. by destruct (_ !! _).
  - apply setupExecutor_keeps_executor.
  - intros o. unfold registerModule, newModuleData, qWarning. maintain; untouched.
  - intros st'. apply setter_maintains; untouched.
Qed.



(** *** The registry *)

Lemma registerModule_keyedById (env : Env) o :
  maintains (fun s => keyedById (modules (d s))) (registerModule env o).
Proof.
  intros s H. unfold registerModule, newModuleData. unfold_monad.
  destruct (qobject_cast_ReactModuleInterface env o); simpl; [| done].
  intros k md. destruct (decide (md_id (ReactModuleData_new env (moduleDataCount s) o) = k))
    as [<- | Hne].
  - rewrite lookup_insert_eq. by intros [= <-].
  - rewrite lookup_insert_ne by done. apply H.
Qed.

Lemma step_keeps_keyedById (env : Env) st :
  maintains (fun s => keyedById (modules (d s))) (step env st).
Proof.
  apply stepwise_step; try untouched.
  - intros k s H. unfold modules_at. destruct (modules (d s) !! k) eqn:E; [done |].
    simpl. intros k' md. destruct (decide (k = k')) as [<- | Hne].
    + by rewrite lookup_insert_eq.
    + rewrite lookup_insert_ne by done. apply H.
  - apply maintains_setupExecutor; untouched.
  - apply registerModule_keyedById.
  - intros st'. apply setter_maintains; untouched.
Qed.

(** In every state that a bridge gets into from its constructor, each
    module of the registry is stored under the ID that its own [id()]
    gives.  A call for module ID [k] and method index [j] therefore runs, if
    it runs anything, a method of a module whose ID is [k]. *)
Theorem registry_keyed_by_id (env : Env) (steps : list Step) :
  keyedById (modules (d (final (run env steps ReactBridge_new))))
  ∧ ∀ k j params md m,
      entryEvent env (modules (d (final (run env steps ReactBridge_new))))
                 (VNum k) (VNum j) params
      = EvInvoke md m (toList params) →
      md_id md = int32 k.
Proof.
  assert (H : keyedById (modules (d (final (run env steps ReactBridge_new))))).
  { apply (maintains_for_each _ steps (step env) (step_keeps_keyedById env)).
    intros k md. simpl. by rewrite lookup_empty. }
  split; [done |]. intros k j params md m. unfold entryEvent, lookupModule. simpl.
  destruct (modules _ !! int32 k) as [[md'|]|] eqn:E; simpl; try done.
  destruct (method md' _); [| done]. intros [= <- _]. by apply H.
Qed.

(** *** The configuration *)

Lemma step_keeps_configuration (env : Env) st c :
  isConfigSetter st = false →
  maintains (fun s => configuration s = c) (step env st).
Proof.
  apply stepwise_other; try untouched.
  - intros k s H. unfold modules_at. by destruct (_ !! _).
  - apply maintains_setupExecutor; untouched.
  - intros o. unfold registerModule, newModuleData, qWarning. maintain; untouched.
Qed.

(** Bundle URL, plugins path, executor name and network access manager are
    written by their setters and by nothing else: along a run without
    setter calls they stay what they were, through [init()], [reload()],
    batches and faults. *)
Theorem configuration_kept (env : Env) (steps : list Step) (s : Bridge) :
  noConfigSetter steps = true →
  configuration (final (run env steps s)) = configuration s.
Proof.
  revert s. induction steps as [|st steps IH]; intros s H; [done |].
  unfold noConfigSetter in H. simpl in H. apply andb_true_iff in H as [Hst H].
  apply negb_true_iff in Hst.
  pose proof (step_keeps_configuration env st (configuration s) Hst s eq_refl) as Hs.
  rewrite run_cons. destruct (step env st s) as [[] s1 | f s1]; simpl in Hs; [| done].
  rewrite <- Hs. by apply IH.
Qed.

Lemma configuration_kept_witness :
  configuration (final (run sampleEnv
                          [CallInit; SigApplicationScriptDone 1; TimerFires 0;
                           ExecutorReplies 0 DocNull; CallReload]
                          bridgeWithNam))
  = configuration bridgeWithNam.
Proof.
  apply (configuration_kept sampleEnv
           [CallInit; SigApplicationScriptDone 1; TimerFires 0;
            ExecutorReplies 0 DocNull; CallReload] bridgeWithNam).
  reflexivity.
Defined.

(** ** init and reload *)

#[local] Arguments registryOf : simpl never.
#[local] Arguments registerCount : simpl never.
#[local] Arguments registerEvents : simpl never.
#[local] Arguments candidateModules : simpl never.
#[local] Arguments initModulesEvents : simpl never.
#[local] Arguments configOf : simpl never.
#[local] Arguments QMap_values : simpl never.
#[local] Arguments deleteEvents : simpl never.

(** The second half of [init] and of [reload]. *)
Lemma initModules_injectModules_loadSource (env : Env) (s : Bridge) e :
  executor (d s) = Some e →
  noNullModule (modules (d s)) →
  (initModules env;; injectModules;; loadSource) s = Done tt (modulesLoaded env e s).
Proof.
  intros He Hreg.
  rewrite (bind_Done _ _ s tt (modulesInitialised env s)) by apply initModules_spec.
  rewrite (bind_Done _ _ _ tt
             (emitted [injectEvent e (modules (d (modulesInitialised env s)))]
                      (modulesInitialised env s))).
  2: { apply injectModules_spec; [done |]. simpl. by apply registryOf_noNullModule. }
  unfold modulesLoaded, loadEvent.
  destruct (nam (d s)) as [n|] eqn:Hn.
  - rewrite (loadSource_spec _ n (nextPtr s)) by done. by rewrite emitted_emitted.
  - rewrite loadSource_no_nam by done. by rewrite emitted_emitted.
Qed.

(** [init()] on a bridge that has no executor yet and no null entry in its
    registry, for a class name that does not lead to a null meta-object,
    returns without fault.  It installs a new executor (the configured
    class, or the default one after a warning), adds the candidate modules
    to the registry, injects the configuration of the registry into the new
    executor, and starts loading the source if there is a network access
    manager; if there is none it says so and loads nothing.  [ready] and the
    configuration are untouched. *)
Theorem init_builds (env : Env) (s : Bridge) :
  executor (d s) = None →
  noNullModule (modules (d s)) →
  QMetaType_type env (executorName (d s) +:+ "*") ≠ NoMetaObject →
  ∃ b s',
    init env s = Done tt s'
    ∧ (b = true ↔ QMetaType_type env (executorName (d s) +:+ "*") = MetaObject true)
    ∧ ready (d s') = ready (d s)
    ∧ executor (d s') = Some (nextPtr s)
    ∧ modules (d s')
      = registryOf env (candidateModules env (pluginsPath (d s)))
                   (moduleDataCount s) (modules (d s))
    ∧ configuration s' = configuration s
    ∧ newEvents s s'
      = constructionEvents b (executorName (d s)) (nextPtr s)
        ++ [EvConnectApplicationScriptDone (nextPtr s); EvExecutorInit (nextPtr s)]
        ++ initModulesEvents env (pluginsPath (d s)) (bundleUrl (d s)) (S (nextPtr s))
        ++ [injectEvent (nextPtr s) (modules (d s')); loadEvent s (S (nextPtr s))].
Proof.
  intros He Hreg Hty.
  destruct (setupExecutor_fresh env s He Hty) as (b & E1 & Hb).
  exists b, (modulesLoaded env (nextPtr s) (executorInstalled b s)).
  split.
  { unfold init. rewrite (bind_Done _ _ _ _ _ E1).
    by apply initModules_injectModules_loadSource. }
  split; [done |]. split; [done |]. split; [done |]. split; [done |]. split; [done |].
  unfold newEvents, modulesLoaded, modulesInitialised, executorInstalled, emitted.
  cbn [trace d nextPtr moduleDataCount pluginsPath bundleUrl executorName
       put_executor put_modules put_uiManager put_imageLoader put_sourceCode].
  rewrite <- !app_assoc. by rewrite drop_app_length.
Qed.

Lemma init_builds_witness :
  ∃ b s', init sampleEnv ReactBridge_new = Done tt s'
          ∧ (b = true
             ↔ QMetaType_type sampleEnv (executorName (d ReactBridge_new) +:+ "*")
               = MetaObject true)
          ∧ ready (d s') = false
          ∧ executor (d s') = Some 1%nat.
Proof.
  destruct (init_builds sampleEnv ReactBridge_new) as (b & s' & E & Hb & Hr & He & _).
  - reflexivity.
  - intros k v. simpl. by rewrite lookup_empty.
  - vm_compute. discriminate.
  - exists b, s'. split; [exact E |]. split; [exact Hb |]. split; [exact Hr | exact He].
Defined.

(** [reload()] on a bridge that was never initialised: [ready] is set to
    false, and telling the executor to delete itself goes through a null
    pointer. *)
Theorem reload_without_executor (env : Env) (s : Bridge) :
  executor (d s) = None →
  reload env s = Crash NullPointer (notReady s).
Proof.
  intros He. unfold reload.
  rewrite (bind_Done _ _ s tt (notReady s)) by apply setReady_false.
  apply bind_Crash. unfold deref.
  replace (executor (d (notReady s))) with (executor (d s)); [by rewrite He |].
  unfold notReady. by destruct (ready (d s)).
Qed.

Lemma reload_without_executor_witness :
  reload sampleEnv ReactBridge_new = Crash NullPointer (notReady ReactBridge_new).
Proof. apply reload_without_executor. reflexivity. Defined.

(** [reload()] on a bridge whose configured executor class is not
    registered.  The executor that was scheduled for deletion stays the
    executor of the bridge: no other is constructed, no warning is given,
    it is connected and initialised once more, and the new configuration is
    injected into it. *)
Theorem reload_unregistered_class (env : Env) (s : Bridge) e :
  executor (d s) = Some e →
  QMetaType_type env (executorName (d s) +:+ "*") = UnknownType →
  ∃ s', reload env s = Done tt s'
        ∧ ready (d s') = false
        ∧ executor (d s') = Some e
        ∧ modules (d s')
          = registryOf env (candidateModules env (pluginsPath (d s)))
                       (moduleDataCount s) ∅
        ∧ newEvents s s'
          = (if ready (d s) then [EvReadyChanged] else [])
            ++ [EvDeleteLater e; EvConnectApplicationScriptDone e; EvExecutorInit e]
            ++ deleteEvents (QMap_values (modules (d s)))
            ++ initModulesEvents env (pluginsPath (d s)) (bundleUrl (d s)) (nextPtr s)
            ++ [injectEvent e (modules (d s')); loadEvent s (nextPtr s)].
Proof.
  intros He Hty.
  assert (F : ∃ s1, notReady s = s1
                    ∧ d s1 = put_ready false (d s)
                    ∧ nextPtr s1 = nextPtr s ∧ moduleDataCount s1 = moduleDataCount s
                    ∧ trace s1 = trace s ++ (if ready (d s) then [EvReadyChanged] else [])).
  { eexists. split; [reflexivity |]. unfold notReady.
    destruct (ready (d s)) eqn:Hr; simpl; [done |].
    rewrite app_nil_r. destruct s as [[] ? ? ? ? ?]. simpl in Hr. by subst. }
  destruct F as (s1 & F & Hd & Hp & Hc & Htr).
  pose (s3 := emitted [EvConnectApplicationScriptDone e; EvExecutorInit e]
                (emitted [EvDeleteLater e] s1)).
  pose (s4 := with_d (put_modules ∅)
                (emitted (deleteEvents (QMap_values (modules (d s)))) s3)).
  exists (modulesLoaded env e s4).
  split.
  { unfold reload.
    rewrite (bind_Done _ _ s tt s1) by (rewrite <- F; apply setReady_false).
    rewrite (bind_Done _ _ _ e s1) by (apply deref_Some; by rewrite Hd).
    rewrite (bind_Done _ _ _ tt (emitted [EvDeleteLater e] s1)) by done.
    rewrite (bind_Done _ _ _ tt s3).
    2: { apply setupExecutor_unknown_keeps; simpl; by rewrite Hd. }
    rewrite (bind_Done _ _ _ (modules (d s)) s3) by (unfold get, s3; simpl; by rewrite Hd).
    rewrite (bind_Done _ _ _ tt _ (for_each_deleteModuleData _ _)).
    rewrite (bind_Done _ _ _ tt s4) by done.
    apply initModules_injectModules_loadSource.
    - unfold s4, s3. simpl. by rewrite Hd.
    - intros k v. unfold s4. simpl. by rewrite lookup_empty. }
  unfold s4, s3, modulesLoaded, modulesInitialised, newEvents, loadEvent, emitted.
  cbn [trace d nextPtr moduleDataCount pluginsPath bundleUrl executorName with_d
       ready executor modules nam
       put_executor put_modules put_uiManager put_imageLoader put_sourceCode].
  rewrite Hd, Hp, Hc, Htr.
  cbn [ready executor modules nam pluginsPath bundleUrl put_ready].
  split; [done |]. split; [done |]. split; [done |].
  rewrite <- !app_assoc. by rewrite drop_app_length.
Qed.

Lemma reload_unregistered_class_witness :
  ∃ s', reload sampleEnv
          (final (run sampleEnv [CallSetExecutorName "NoSuchExecutor"; CallInit]
                      ReactBridge_new))
        = Done tt s'
        ∧ ready (d s') = false
        ∧ executor (d s') = Some 1%nat.
Proof.
  destruct (reload_unregistered_class sampleEnv
              (final (run sampleEnv [CallSetExecutorName "NoSuchExecutor"; CallInit]
                          ReactBridge_new)) 1%nat)
    as (s' & E & Hr & He & _).
  - vm_compute. reflexivity.
  - vm_compute. reflexivity.
  - exists s'. split; [exact E |]. split; [exact Hr | exact He].
Defined.

Lemma registry_keyed_by_id_witness :
  md_id (ReactModuleData_new sampleEnv 3 (mkObject "ReactNetworking")) = int32 3.
Proof.
  refine (proj2 (registry_keyed_by_id sampleEnv
                   [CallSetNetworkAccessManager (Some 0%nat); CallInit])
                3 0 (VList [])
                (ReactModuleData_new sampleEnv 3 (mkObject "ReactNetworking"))
                (mkMethod "method0") _).
  vm_compute. reflexivity.
Defined.

(** ** The ready flag *)

(** [setReady(b)] ends with [ready] equal to [b], emits [readyChanged] if
    that was a change and nothing if it was not, and a second call with the
    same value does nothing at all. *)
Theorem setReady_signals_changes (b : bool) (s : Bridge) :
  ∃ s', setReady b s = Done tt s'
        ∧ ready (d s') = b
        ∧ newEvents s s' = (if Bool.eqb (ready (d s)) b then [] else [EvReadyChanged])
        ∧ setReady b s' = Done tt s'.
Proof.
  unfold setReady, newEvents. unfold_monad.
  destruct (ready (d s)) eqn:Hr, b; simpl; eexists;
    (split; [reflexivity |]); simpl; rewrite ?Hr, ?drop_all, ?drop_app_length; done.
Qed.

(** ** The network access manager *)

(** On a bridge that has a network access manager, giving it another one
    replaces the old one and changes nothing else, giving it the same one
    changes nothing, and giving it a null pointer stores the null pointer
    and then asks it for its cache: a fault. *)
Theorem setNetworkAccessManager_null (s : Bridge) (n m : ptr) :
  nam (d s) = Some n →
  setNetworkAccessManager (Some m) s = Done tt (with_d (put_nam (Some m)) s)
  ∧ setNetworkAccessManager (Some n) s = Done tt s
  ∧ setNetworkAccessManager None s = Crash NullPointer (with_d (put_nam None) s).
Proof.
  intros Hn. unfold setNetworkAccessManager. unfold_monad. rewrite Hn.
  split; [| split].
  - destruct (decide (Some n = Some m)) as [[= <-] | Hne]; [| done].
    destruct s as [[] ? ? ? ? ?]. simpl in Hn. by subst.
  - by rewrite decide_True.
  - by rewrite decide_False.
Qed.

Lemma setNetworkAccessManager_null_witness :
  setNetworkAccessManager None bridgeAB
  = Crash NullPointer (with_d (put_nam None) bridgeAB).
Proof.
  exact (proj2 (proj2 (setNetworkAccessManager_null bridgeAB 2%nat 2%nat eq_refl))).
Defined.

(** ** Calls into the script, continued *)

(** [invokeAndProcess] makes exactly one call on the executor, with the
    name and the arguments it was given, changes nothing else, and hands
    the executor's answer to [processResult]. *)
Theorem invokeAndProcess_calls_executor (env : Env) (s : Bridge) e method args :
  executor (d s) = Some e →
  ∃ s', invokeAndProcess method args s = Done tt s'
        ∧ d s' = d s
        ∧ newEvents s s' = [EvExecuteJSCall e method args CbProcessResult]
        ∧ calls s' = calls s ++ [mkCall e method args CbProcessResult]
        ∧ timers s' = timers s
        ∧ ∀ doc, step env (ExecutorReplies (length (calls s)) doc) s'
                 = processResult env doc (answered (length (calls s)) s').
Proof.
  intros He.
  exists {| d := d s; nextPtr := nextPtr s; moduleDataCount := moduleDataCount s;
            timers := timers s;
            calls := calls s ++ [mkCall e method args CbProcessResult];
            trace := trace s ++ [EvExecuteJSCall e method args CbProcessResult] |}.
  split.
  { unfold invokeAndProcess, executeJSCall, push_call. unfold_monad. by rewrite He. }
  split; [done |]. split.
  { unfold newEvents. simpl. by rewrite drop_app_length. }
  split; [done |]. split; [done |].
  intros doc. rewrite (step_reply env _ doc _ (mkCall e method args CbProcessResult));
    [done |].
  simpl. by rewrite list_lookup_middle.
Qed.

Lemma invokeAndProcess_calls_executor_witness :
  ∃ s', invokeAndProcess "flushedQueue" [] bridgeAB = Done tt s'
        ∧ d s' = d bridgeAB
        ∧ newEvents bridgeAB s' = [EvExecuteJSCall 1 "flushedQueue" [] CbProcessResult].
Proof.
  destruct (invokeAndProcess_calls_executor sampleEnv bridgeAB 1%nat "flushedQueue" [])
    as (s' & E & Hd & Hn & _).
  - reflexivity.
  - exists s'. split; [exact E |]. split; [exact Hd | exact Hn].
Defined.

(** Without an executor, as before [init()], a call into the script goes
    through a null pointer: [enqueueJSCall] and [invokeAndProcess] fault
    and leave the bridge as it was, and so does the timer that
    [applicationScriptDone] has set up. *)
Theorem script_call_without_executor (env : Env) (s : Bridge)
    module method args i :
  executor (d s) = None →
  enqueueJSCall module method args s = Crash NullPointer s
  ∧ invokeAndProcess method args s = Crash NullPointer s
  ∧ (timers s !! i = Some TkFlushedQueue →
     ∃ s', step env (TimerFires i) s = Crash NullPointer s'
           ∧ timers s' = delete i (timers s) ∧ calls s' = calls s
           ∧ trace s' = trace s).
Proof.
  intros He. unfold enqueueJSCall, invokeAndProcess, executeJSCall. unfold_monad.
  rewrite He. split; [done |]. split; [done |].
  intros Ht. simpl. unfold take_timer. unfold_monad. rewrite Ht. simpl.
  unfold executeJSCall. unfold_monad. simpl. rewrite He. by eexists.
Qed.

Lemma script_call_without_executor_witness :
  enqueueJSCall "RCTEventEmitter" "receiveEvent" [] ReactBridge_new
  = Crash NullPointer ReactBridge_new.
Proof.
  exact (proj1 (script_call_without_executor sampleEnv ReactBridge_new
                  "RCTEventEmitter" "receiveEvent" [] 0%nat eq_refl)).
Defined.

(** ** Execution of the application script *)

(** When the source code has arrived, the script is not executed at once:
    [sourcesFinished] sets up a timer of 200 ms, and when that timer fires
    the script is handed to the executor the bridge has at that moment,
    together with the bundle URL of that moment. *)
Theorem sourcesFinished_then_timer (env : Env) (s : Bridge) e src :
  executor (d s) = Some e →
  sourceCode (d s) = Some src →
  run env [SigSourceCodeChanged; TimerFires (length (timers s))] s
  = Done tt (emitted [EvSingleShot 200 TkExecuteApplicationScript;
                      EvExecuteApplicationScript e src (bundleUrl (d s))] s).
Proof.
  intros He Hs. unfold run. simpl. unfold sourcesFinished, push_timer, take_timer.
  unfold_monad. simpl. rewrite list_lookup_middle by done. simpl.
  unfold_monad. simpl.
  rewrite He. simpl. rewrite Hs. simpl.
  unfold emitted. rewrite delete_middle, app_nil_r, <- app_assoc.
  by destruct s.
Qed.

Lemma sourcesFinished_then_timer_witness :
  run sampleEnv [SigSourceCodeChanged; TimerFires (length (timers bridgeAB))]
      (with_d (put_sourceCode (Some 9%nat)) bridgeAB)
  = Done tt (emitted [EvSingleShot 200 TkExecuteApplicationScript;
                      EvExecuteApplicationScript 1 9 ""]
                     (with_d (put_sourceCode (Some 9%nat)) bridgeAB)).
Proof.
  apply (sourcesFinished_then_timer sampleEnv
           (with_d (put_sourceCode (Some 9%nat)) bridgeAB) 1%nat 9%nat);
    reflexivity.
Defined.

(** ** Plugin modules *)

Lemma pluginObjects_spec (env : Env) dir files : ∀ acc,
  pluginObjects env dir files acc
  = acc ++ concat ((fun f => loadedModules (QPluginLoader_instance env dir f)) <$> files).
Proof.
  induction files as [|f files IH]; intros acc; simpl.
  - by rewrite app_nil_r.
  - destruct (QPluginLoader_instance env dir f); simpl; rewrite IH; [done | done |].
    by rewrite <- app_assoc.
Qed.

Lemma pluginWarnings_spec (env : Env) dir files :
  Forall (fun ev => is_warning ev = true) (pluginWarnings env dir files)
  ∧ length (pluginWarnings env dir files)
    = length (filter (fun f => isModuleLoader (QPluginLoader_instance env dir f) = false)
                     files).
Proof.
  induction files as [|f files [IH1 IH2]]; simpl; [by split |].
  rewrite filter_cons.
  destruct (QPluginLoader_instance env dir f); simpl.
  - split; [by constructor | by rewrite IH2].
  - split; [by constructor | by rewrite IH2].
  - by split.
Qed.

(** [pluginModules] never fails.  It returns the modules of the components
    loader, then the five built-in Ubuntu managers, then the modules of
    every library of the plugin directory that is a module loader, in
    directory order; a library that is no plugin or no module loader
    contributes nothing and costs one warning, and nothing else happens to
    the bridge. *)
Theorem pluginModules_skips_bad_libraries (env : Env) (s : Bridge) :
  ∃ warnings,
    pluginModules env s
    = Done (UbuntuComponentsLoader_availableModules env
            ++ [ mkObject "UbuntuScrollViewManager"; mkObject "UbuntuNavigatorManager";
                 mkObject "UbuntuPageManager"; mkObject "UbuntuTextFieldManager";
                 mkObject "UbuntuDatePickerManager" ]
            ++ concat ((fun f => loadedModules
                                   (QPluginLoader_instance env (pluginsPath (d s)) f))
                       <$> QDir_entryList env (pluginsPath (d s))))
           (emitted warnings s)
    ∧ Forall (fun ev => is_warning ev = true) warnings
    ∧ length warnings
      = length (filter (fun f => isModuleLoader
                                   (QPluginLoader_instance env (pluginsPath (d s)) f)
                                 = false)
                       (QDir_entryList env (pluginsPath (d s)))).
Proof.
  exists (pluginWarnings env (pluginsPath (d s)) (QDir_entryList env (pluginsPath (d s)))).
  split; [| apply pluginWarnings_spec].
  unfold pluginModules. unfold_monad. rewrite loadPlugins_spec, pluginObjects_spec.
  by rewrite <- app_assoc.
Qed.

(** ** The injected configuration *)

Lemma QVariantMap_insert_keys k v m k' :
  k' ∈ (QVariantMap_insert k v m).*1 ↔ k' = k ∨ k' ∈ m.*1.
Proof.
  induction m as [|[k0 v0] m IH]; simpl.
  - rewrite list_elem_of_singleton. rewrite elem_of_nil. tauto.
  - destruct (String.compare k k0) eqn:C; simpl.
    + apply String.compare_eq_iff in C as <-. rewrite !elem_of_cons. tauto.
    + rewrite !elem_of_cons. tauto.
    + rewrite !elem_of_cons, IH. tauto.
Qed.

Lemma QVariantMap_insert_elem k v m k' v' :
  (k', v') ∈ QVariantMap_insert k v m → (k', v') = (k, v) ∨ (k', v') ∈ m.
Proof.
  induction m as [|[k0 v0] m IH]; simpl.
  - rewrite list_elem_of_singleton. tauto.
  - destruct (String.compare k k0) eqn:C; simpl; rewrite !elem_of_cons; tauto.
Qed.

#[local] Arguments configOf mds cfg : simpl nomatch.

Lemma configOf_keys mds : ∀ cfg name,
  name ∈ (configOf mds cfg).*1
  ↔ name ∈ cfg.*1 ∨ ∃ md, Some md ∈ mds ∧ md_name md = name.
Proof.
  induction mds as [|[md|] mds IH]; intros cfg name; simpl.
  - split; [by left |]. intros [H | (md & H & _)]; [done |]. by apply elem_of_nil in H.
  - rewrite IH, QVariantMap_insert_keys. split.
    + intros [[-> | H] | (md' & H & Hn)].
      * right. exists md. split; [apply list_elem_of_here | done].
      * by left.
      * right. exists md'. split; [by apply list_elem_of_further | done].
    + intros [H | (md' & H & Hn)]; [left; by right |].
      apply elem_of_cons in H as [[= ->] | H]; [left; by left |].
      right. by exists md'.
  - rewrite IH. split.
    + intros [H | (md' & H & Hn)]; [by left |].
      right. exists md'. split; [by apply list_elem_of_further | done].
    + intros [H | (md' & H & Hn)]; [by left |].
      apply elem_of_cons in H as [[=] | H]. right. by exists md'.
Qed.

Lemma configOf_elem mds : ∀ cfg name v,
  (name, v) ∈ configOf mds cfg →
  (name, v) ∈ cfg ∨ ∃ md, Some md ∈ mds ∧ md_name md = name ∧ md_info md = v.
Proof.
  induction mds as [|[md|] mds IH]; intros cfg name v H; simpl in H.
  - by left.
  - apply IH in H as [H | (md' & H & Hn)].
    + apply QVariantMap_insert_elem in H as [[= -> ->] | H]; [| by left].
      right. exists md. split; [apply list_elem_of_here | done].
    + right. exists md'. split; [by apply list_elem_of_further | done].
  - apply IH in H as [H | (md' & H & Hn)]; [by left |].
    right. exists md'. split; [by apply list_elem_of_further | done].
Qed.

(** With an executor and a registry without null entries, [injectModules]
    injects one document, named ["__fbBatchedBridgeConfig"], whose
    ["remoteModuleConfig"] has a key for every module of the registry and
    for nothing else, namely the name of the module; what is stored under a
    name is the [info()] of a module of that name. *)
Theorem injectModules_config (s : Bridge) (e : ptr) :
  executor (d s) = Some e →
  noNullModule (modules (d s)) →
  ∃ cfg,
    injectModules s
    = Done tt (emitted [EvInjectJson e "__fbBatchedBridgeConfig"
                          (VMap [("remoteModuleConfig", VMap cfg)])] s)
    ∧ (∀ name, name ∈ cfg.*1
               ↔ ∃ k md, modules (d s) !! k = Some (Some md) ∧ md_name md = name)
    ∧ (∀ name v, (name, v) ∈ cfg →
                 ∃ k md, modules (d s) !! k = Some (Some md)
                         ∧ md_name md = name ∧ md_info md = v).
Proof.
  intros He Hreg. exists (configOf (QMap_values (modules (d s))) []).
  split; [by apply injectModules_spec |]. split.
  - intros name. rewrite configOf_keys. split.
    + intros [H | (md & H & Hn)]; [by apply elem_of_nil in H |].
      apply QMap_values_elem_of in H as [k Hk]. by exists k, md.
    + intros (k & md & Hk & Hn). right. exists md. split; [| done].
      by eapply QMap_values_elem_of_2.
  - intros name v H. apply configOf_elem in H as [H | (md & H & Hn & Hv)];
      [by apply elem_of_nil in H |].
    apply QMap_values_elem_of in H as [k Hk]. by exists k, md.
Qed.

Lemma injectModules_config_witness :
  ∃ cfg,
    injectModules bridgeAB
    = Done tt (emitted [EvInjectJson 1 "__fbBatchedBridgeConfig"
                          (VMap [("remoteModuleConfig", VMap cfg)])] bridgeAB)
    ∧ (∀ name, name ∈ cfg.*1
               ↔ ∃ k md, modules (d bridgeAB) !! k = Some (Some md) ∧ md_name md = name).
Proof.
  destruct (injectModules_config bridgeAB 1%nat) as (cfg & E & Hk & _).
  - reflexivity.
  - intros k v Hv.
    destruct (decide (k = 0)) as [-> | H0]; [vm_compute in Hv; injection Hv as <-; eauto |].
    destruct (decide (k = 1)) as [-> | H1]; [vm_compute in Hv; injection Hv as <-; eauto |].
    unfold bridgeAB in Hv. simpl in Hv.
    by rewrite !lookup_insert_ne, lookup_empty in Hv.
  - by exists cfg.
Defined.

Lemma moduleConfig_null mds : ∀ cfg s,
  None ∈ mds → moduleConfig mds cfg s = Crash NullPointer s.
Proof.
  induction mds as [|[md|] mds IH]; intros cfg s H; simpl.
  - by apply elem_of_nil in H.
  - apply elem_of_cons in H as [[=] | H]. by apply IH.
  - done.
Qed.

(** A null entry in the registry, such as a batch with an unknown module ID
    leaves behind, is fatal for [injectModules]: asking the entry for its
    name goes through the null pointer, before anything is injected. *)
Theorem injectModules_null_module (s : Bridge) (k : Z) :
  modules (d s) !! k = Some None →
  injectModules s = Crash NullPointer s.
Proof.
  intros Hk. unfold injectModules. unfold_monad.
  rewrite moduleConfig_null; [done |]. by eapply QMap_values_elem_of_2.
Qed.

(** The registry [A], [B] after a batch that asked for module 7. *)
Lemma injectModules_null_module_witness :
  injectModules
    (final (processResult sampleEnv
              (DocArray [VList [VNum 7]; VList [VNum 0]; VList [VList []]]) bridgeAB))
  = Crash NullPointer
      (final (processResult sampleEnv
                (DocArray [VList [VNum 7]; VList [VNum 0]; VList [VList []]]) bridgeAB)).
Proof.
  apply (injectModules_null_module _ 7). vm_compute. reflexivity.
Defined.
